(** * portfolio-pricer: positions, portfolio totals, weights and volatility

    A shallow embedding of [portfolio.py] and [analytics.py].

    The program computes in IEEE binary64 ([float] in Python, [float64] in
    numpy and pandas).  The valuation layer is written once over a small
    interface of the arithmetic it uses, [Number], and instantiated twice:
    at Rocq's primitive binary64 floats, which is what runs, and at the
    rationals, which is what the formulas mean when nothing is rounded.
    The risk layer uses square roots and is written on binary64 directly. *)

From Stdlib Require Import Floats Uint63 ZArith QArith Qfield Bool List Ascii String Lia.
From Stdlib Require Import Sorting.Sorted Sorting.Permutation.
Import ListNotations.

Set Implicit Arguments.
Set Default Proof Using "Type".

(** ** Exceptions and results *)

Inductive exn : Type :=
| ZeroDivisionError
| KeyError (key : string)
| ValueError (msg : string).

Inductive result (A : Type) : Type :=
| Ok (a : A)
| Raise (e : exn).

Arguments Ok {A} a.
Arguments Raise {A} e.

Definition bind {A B : Type} (m : result A) (k : A -> result B) : result B :=
  match m with
  | Ok a => k a
  | Raise e => Raise e
  end.

Declare Scope result_scope.
Delimit Scope result_scope with result.
Notation "x <- m ;; k" := (bind m (fun x => k))
  (at level 61, m at next level, right associativity) : result_scope.

(** ** The arithmetic the valuation layer uses *)

Class Number (T : Type) : Type := {
  n0 : T;                      (* 0 and 0.0 *)
  n100 : T;                    (* 100.0 *)
  nadd : T -> T -> T;
  nsub : T -> T -> T;
  nmul : T -> T -> T;
  ndiv : T -> T -> T;          (* the quotient when the divisor is not zero *)
  neqb : T -> T -> bool;       (* == *)
  nltb : T -> T -> bool;       (* < *)
  nisnan : T -> bool           (* NaN, which pandas reads as a missing value *)
}.

Declare Scope num_scope.
Delimit Scope num_scope with num.
Infix "+" := nadd : num_scope.
Infix "-" := nsub : num_scope.
Infix "*" := nmul : num_scope.
Infix "/" := ndiv : num_scope.
Infix "=?" := neqb : num_scope.
Infix "<?" := nltb : num_scope.

(** binary64: every operation is the IEEE one, as in CPython and numpy. *)
#[export] Instance binary64 : Number float := {
  n0 := 0%float;
  n100 := 100%float;
  nadd := PrimFloat.add;
  nsub := PrimFloat.sub;
  nmul := PrimFloat.mul;
  ndiv := PrimFloat.div;
  neqb := PrimFloat.eqb;
  nltb := PrimFloat.ltb;
  nisnan := PrimFloat.is_nan
}.

(** Exact arithmetic: no rounding, no NaN. *)
#[export] Instance exact : Number Q := {
  n0 := 0%Q;
  n100 := 100%Q;
  nadd := Qplus;
  nsub := Qminus;
  nmul := Qmult;
  ndiv := Qdiv;
  neqb := Qeq_bool;
  nltb := fun x y => negb (Qle_bool y x);
  nisnan := fun _ => false
}.

Section Valuation.

Context {T : Type} `{Number T}.
Local Open Scope num_scope.
Local Open Scope result_scope.

(** [x / y] on Python floats raises when the divisor compares equal to 0. *)
Definition py_truediv (x y : T) : result T :=
  if y =? n0 then Raise ZeroDivisionError else Ok (x / y).

(** The builtin [sum]: accumulation from 0, left to right.  (CPython 3.12
    and later carry a correction term along when the items are floats.) *)
Definition py_sum (xs : list T) : T := fold_left nadd xs n0.

(** ** Position *)

Record Position : Type := {
  ticker : string;
  quantity : T;
  avg_cost : T;
  latest_price : option T;
  sector : option string
}.

Definition cost_basis (self : Position) : T :=
  quantity self * avg_cost self.

Definition market_value (self : Position) : option T :=
  match latest_price self with
  | None => None
  | Some price => Some (quantity self * price)
  end.

Definition unrealized_pl (self : Position) : option T :=
  match market_value self with
  | None => None
  | Some mv => Some (mv - cost_basis self)
  end.

Definition unrealized_pl_pct (self : Position) : result (option T) :=
  match unrealized_pl self with
  | None => Ok None
  | Some pl =>
      if cost_basis self =? n0 then Ok None
      else r <- py_truediv pl (cost_basis self) ;; Ok (Some (r * n100))
  end.

(** ** Portfolio *)

Record Portfolio : Type := { positions : list Position }.

Definition total_cost_basis (self : Portfolio) : T :=
  py_sum (map cost_basis (positions self)).

(** [[p.market_value for p in self.positions if p.market_value is not None]] *)
Fixpoint defined_values (ps : list Position) : list T :=
  match ps with
  | [] => []
  | p :: ps' =>
      match market_value p with
      | Some mv => mv :: defined_values ps'
      | None => defined_values ps'
      end
  end.

Definition total_market_value (self : Portfolio) : option T :=
  match defined_values (positions self) with
  | [] => None
  | values => Some (py_sum values)
  end.

Definition total_unrealized_pl (self : Portfolio) : option T :=
  match total_market_value self with
  | None => None
  | Some mv => Some (mv - total_cost_basis self)
  end.

Definition total_unrealized_pl_pct (self : Portfolio) : result (option T) :=
  match total_unrealized_pl self with
  | None => Ok None
  | Some pl =>
      if total_cost_basis self =? n0 then Ok None
      else r <- py_truediv pl (total_cost_basis self) ;; Ok (Some (r * n100))
  end.

(** ** The fragment of pandas that [to_dataframe] uses

    A cell holds a string, a number or [None]; a record is a [dict] in
    insertion order; a frame maps column labels, in order, to columns. *)

Inductive cell : Type :=
| CStr (s : string)
| CNum (x : T)
| CNone.

Definition record : Type := list (string * cell).
Definition Series : Type := list cell.
Definition DataFrame : Type := list (string * Series).

Definition opt_num (o : option T) : cell :=
  match o with Some x => CNum x | None => CNone end.

Definition opt_str (o : option string) : cell :=
  match o with Some s => CStr s | None => CNone end.

Definition lookup {V : Type} (key : string) (kvs : list (string * V)) : option V :=
  match find (fun kv => String.eqb (fst kv) key) kvs with
  | Some kv => Some (snd kv)
  | None => None
  end.

(** The labels of [pd.DataFrame(rows)]: the keys of the records, each once,
    in order of first appearance. *)
Definition add_keys (seen : list string) (r : record) : list string :=
  seen ++ filter (fun k => negb (existsb (String.eqb k) seen)) (map fst r).

Definition record_keys (rows : list record) : list string :=
  fold_left add_keys rows [].

(** [pd.DataFrame(rows)]: a key a record lacks reads as missing.  No record,
    no column. *)
Definition pd_DataFrame (rows : list record) : DataFrame :=
  map (fun k => (k, map (fun r => match lookup k r with
                                  | Some c => c
                                  | None => CNone
                                  end) rows))
      (record_keys rows).

(** [df[key]] *)
Definition getitem (df : DataFrame) (key : string) : result Series :=
  match lookup key df with
  | Some col => Ok col
  | None => Raise (KeyError key)
  end.

(** [df[key] = col]: replaces the column in place, or adds it last. *)
Fixpoint setitem (df : DataFrame) (key : string) (col : Series) : DataFrame :=
  match df with
  | [] => [(key, col)]
  | (k, c) :: df' =>
      if String.eqb k key then (k, col) :: df'
      else (k, c) :: setitem df' key col
  end.

(** pandas reads [None] and NaN alike as missing. *)
Definition notna (c : cell) : bool :=
  match c with
  | CStr _ => true
  | CNum x => negb (nisnan x)
  | CNone => false
  end.

Definition series_any (bs : list bool) : bool := existsb (fun b => b) bs.

Definition fillna (value : T) (s : Series) : Series :=
  map (fun c => if notna c then c else CNum value) s.

(** The numbers of a column, missing entries skipped. *)
Fixpoint numbers (s : Series) : list T :=
  match s with
  | [] => []
  | CNum x :: s' => if nisnan x then numbers s' else x :: numbers s'
  | _ :: s' => numbers s'
  end.

(** [Series.sum()], accumulated from 0, left to right, as numpy adds a
    short array; a long one it adds pairwise. *)
Definition series_sum (s : Series) : T := fold_left nadd (numbers s) n0.

Definition series_map (f : T -> T) (s : Series) : Series :=
  map (fun c => match c with CNum x => CNum (f x) | _ => CNone end) s.

(** ** Portfolio.to_dataframe *)

Local Open Scope string_scope.
Local Open Scope num_scope.

Definition position_record (p : Position) : result record :=
  pct <- unrealized_pl_pct p ;;
  Ok [ ("ticker", CStr (ticker p));
       ("quantity", CNum (quantity p));
       ("avg_cost", CNum (avg_cost p));
       ("cost_basis", CNum (cost_basis p));
       ("latest_price", opt_num (latest_price p));
       ("market_value", opt_num (market_value p));
       ("unrealized_pl", opt_num (unrealized_pl p));
       ("unrealized_pl_pct", opt_num pct);
       ("sector", opt_str (sector p)) ].

Fixpoint position_records (ps : list Position) : result (list record) :=
  match ps with
  | [] => Ok []
  | p :: ps' =>
      row <- position_record p ;;
      rows <- position_records ps' ;;
      Ok (row :: rows)
  end.

Definition to_dataframe (self : Portfolio) : result DataFrame :=
  rows <- position_records (positions self) ;;
  let df := pd_DataFrame rows in
  mv <- getitem df "market_value" ;;
  if series_any (map notna mv) then
    let total_value := series_sum (fillna n0 mv) in
    if n0 <? total_value then
      Ok (setitem df "weight_pct"
            (series_map (fun x => x / total_value * n100) (fillna n0 mv)))
    else Ok df
  else Ok df.

(** What [to_dataframe] builds before it looks at weights: the value of
    [unrealized_pl_pct] once its guard has passed, the record of a position,
    and the frame of a list of positions, column by column. *)
Definition pl_pct (p : Position) : option T :=
  match unrealized_pl p with
  | None => None
  | Some pl =>
      if cost_basis p =? n0 then None else Some (pl / cost_basis p * n100)
  end.

Definition record_of (p : Position) : record :=
  [ ("ticker", CStr (ticker p));
    ("quantity", CNum (quantity p));
    ("avg_cost", CNum (avg_cost p));
    ("cost_basis", CNum (cost_basis p));
    ("latest_price", opt_num (latest_price p));
    ("market_value", opt_num (market_value p));
    ("unrealized_pl", opt_num (unrealized_pl p));
    ("unrealized_pl_pct", opt_num (pl_pct p));
    ("sector", opt_str (sector p)) ].

Definition frame_of (ps : list Position) : DataFrame :=
  [ ("ticker", map (fun p => CStr (ticker p)) ps);
    ("quantity", map (fun p => CNum (quantity p)) ps);
    ("avg_cost", map (fun p => CNum (avg_cost p)) ps);
    ("cost_basis", map (fun p => CNum (cost_basis p)) ps);
    ("latest_price", map (fun p => opt_num (latest_price p)) ps);
    ("market_value", map (fun p => opt_num (market_value p)) ps);
    ("unrealized_pl", map (fun p => opt_num (unrealized_pl p)) ps);
    ("unrealized_pl_pct", map (fun p => opt_num (pl_pct p)) ps);
    ("sector", map (fun p => opt_str (sector p)) ps) ].

(** The column [to_dataframe] reads, and the decision it takes from it. *)
Definition market_values (self : Portfolio) : Series :=
  map (fun p => opt_num (market_value p)) (positions self).

Definition total_value_used (self : Portfolio) : T :=
  series_sum (fillna n0 (market_values self)).

Definition weights_computed (self : Portfolio) : bool :=
  series_any (map notna (market_values self))
  && (n0 <? total_value_used self).

(** The weight of one position: its market value, or 0 when it has none,
    over the total, in percent. *)
Definition weight_of (total : T) (p : Position) : T :=
  match market_value p with
  | Some mv => (if nisnan mv then n0 else mv) / total * n100
  | None => n0 / total * n100
  end.

Definition weight_pct (df : DataFrame) : option Series :=
  lookup "weight_pct" df.

(** ** Calls on a portfolio object, with the memory they run in

    The memory holds what [self.positions] holds, and the two locals that
    [to_dataframe] assigns: [rows], which it appends to, and [df], which
    it builds and then extends by a column.  A call returns or raises, and
    leaves a memory behind. *)

Record memory : Type := {
  self_positions : list Position;
  local_rows : list record;
  local_df : DataFrame
}.

Definition stateful (A : Type) : Type := memory -> result A * memory.

Definition st_ret {A : Type} (a : A) : stateful A := fun m => (Ok a, m).

Definition st_bind {A B : Type} (c : stateful A) (k : A -> stateful B)
  : stateful B :=
  fun m =>
    match c m with
    | (Ok a, m') => k a m'
    | (Raise e, m') => (Raise e, m')
    end.

Definition st_lift {A : Type} (r : result A) : stateful A := fun m => (r, m).

Definition read_positions : stateful (list Position) :=
  fun m => (Ok (self_positions m), m).

Definition read_rows : stateful (list record) :=
  fun m => (Ok (local_rows m), m).

Definition read_df : stateful DataFrame :=
  fun m => (Ok (local_df m), m).

Definition assign_rows (rows : list record) : stateful unit :=
  fun m => (Ok tt, {| self_positions := self_positions m;
                      local_rows := rows;
                      local_df := local_df m |}).

Definition assign_df (df : DataFrame) : stateful unit :=
  fun m => (Ok tt, {| self_positions := self_positions m;
                      local_rows := local_rows m;
                      local_df := df |}).

Notation "x <~ c ;; k" := (st_bind c (fun x => k))
  (at level 61, c at next level, right associativity).
Notation "c ;;; k" := (st_bind c (fun _ => k))
  (at level 61, right associativity).

(** [for p in self.positions: ... rows.append(row)] *)
Fixpoint append_rows (ps : list Position) : stateful unit :=
  match ps with
  | [] => st_ret tt
  | p :: ps' =>
      row <~ st_lift (position_record p) ;;
      rows <~ read_rows ;;
      assign_rows (rows ++ [row]) ;;;
      append_rows ps'
  end.

(** [to_dataframe], statement by statement. *)
Definition run_to_dataframe : stateful DataFrame :=
  assign_rows [] ;;;
  ps <~ read_positions ;;
  append_rows ps ;;;
  rows <~ read_rows ;;
  assign_df (pd_DataFrame rows) ;;;
  df <~ read_df ;;
  mv <~ st_lift (getitem df "market_value") ;;
  if series_any (map notna mv) then
    let total_value := series_sum (fillna n0 mv) in
    if n0 <? total_value then
      assign_df (setitem df "weight_pct"
                   (series_map (fun x => x / total_value * n100)
                      (fillna n0 mv))) ;;;
      read_df
    else read_df
  else read_df.

Inductive operation : Type :=
| Op_to_dataframe
| Op_total_cost_basis
| Op_total_market_value
| Op_total_unrealized_pl
| Op_total_unrealized_pl_pct.

Inductive produced : Type :=
| PFrame (df : DataFrame)
| PNum (x : T)
| POpt (o : option T).

Definition call (op : operation) : stateful produced :=
  match op with
  | Op_to_dataframe =>
      df <~ run_to_dataframe ;; st_ret (PFrame df)
  | Op_total_cost_basis =>
      ps <~ read_positions ;;
      st_ret (PNum (total_cost_basis {| positions := ps |}))
  | Op_total_market_value =>
      ps <~ read_positions ;;
      st_ret (POpt (total_market_value {| positions := ps |}))
  | Op_total_unrealized_pl =>
      ps <~ read_positions ;;
      st_ret (POpt (total_unrealized_pl {| positions := ps |}))
  | Op_total_unrealized_pl_pct =>
      ps <~ read_positions ;;
      o <~ st_lift (total_unrealized_pl_pct {| positions := ps |}) ;;
      st_ret (POpt o)
  end.

(** A run of calls, one after the other, on the same object; it goes on
    after a call that raised, as a caller that catches would. *)
Fixpoint calls (ops : list operation) (m : memory)
  : list (result produced) * memory :=
  match ops with
  | [] => ([], m)
  | op :: ops' =>
      let (r, m') := call op m in
      let (rs, m'') := calls ops' m' in
      (r :: rs, m'')
  end.

(** A computation that leaves [self.positions] as it found it. *)
Definition keeps_positions {A : Type} (c : stateful A) : Prop :=
  forall m, self_positions (snd (c m)) = self_positions m.

End Valuation.

Arguments Position T : clear implicits.
Arguments Portfolio T : clear implicits.
Arguments cell T : clear implicits.
Arguments record T : clear implicits.
Arguments Series T : clear implicits.
Arguments DataFrame T : clear implicits.
Arguments produced T : clear implicits.
Arguments memory T : clear implicits.
Arguments stateful T A : clear implicits.

(** ** The fragment of pandas and numpy that [analytics.py] uses

    A numeric frame: column labels, and rows keyed by date.  A missing
    entry is NaN.  Dates are day numbers. *)

Local Open Scope float_scope.

Record Frame : Type := {
  labels : list string;
  body : list (Z * list float)
}.

Definition shape0 (f : Frame) : nat := List.length (body f).
Definition shape1 (f : Frame) : nat := List.length (labels f).

(** [f.empty]: some axis has length 0. *)
Definition empty (f : Frame) : bool :=
  (shape0 f =? 0)%nat || (shape1 f =? 0)%nat.

(** [pd.DataFrame()] *)
Definition no_frame : Frame := {| labels := []; body := [] |}.

Definition column (f : Frame) (j : nat) : list float :=
  map (fun r => nth j (snd r) nan) (body f).

Definition columns (f : Frame) : list (string * list float) :=
  map (fun lj => (fst lj, column f (snd lj)))
      (combine (labels f) (seq 0 (shape1 f))).

(** [sort_index()]: ascending by date, rows of equal date in input order. *)
Fixpoint insert_row (r : Z * list float) (rs : list (Z * list float))
  : list (Z * list float) :=
  match rs with
  | [] => [r]
  | r' :: rs' =>
      if (fst r <=? fst r')%Z then r :: rs else r' :: insert_row r rs'
  end.

Fixpoint sort_index (rs : list (Z * list float)) : list (Z * list float) :=
  match rs with
  | [] => []
  | r :: rs' => insert_row r (sort_index rs')
  end.

Fixpoint map2 {A B C : Type} (f : A -> B -> C) (xs : list A) (ys : list B)
  : list C :=
  match xs, ys with
  | x :: xs', y :: ys' => f x y :: map2 f xs' ys'
  | _, _ => []
  end.

Definition nan_row (r : list float) : list float := map (fun _ => nan) r.

(** Forward fill: a missing entry takes the last value seen in its column. *)
Fixpoint ffill_from (last : list float) (rs : list (Z * list float))
  : list (Z * list float) :=
  match rs with
  | [] => []
  | (d, r) :: rs' =>
      let r' := map2 (fun x l => if is_nan x then l else x) r last in
      (d, r') :: ffill_from r' rs'
  end.

Definition ffill (rs : list (Z * list float)) : list (Z * list float) :=
  match rs with
  | [] => []
  | (_, r) :: _ => ffill_from (nan_row r) rs
  end.

(** What [pct_change()] does to missing prices when called without
    arguments: pandas before 3.0 forward-fills them first, pandas 3.0 leaves
    them. *)
Inductive fill_method : Type := pad | no_fill.

Definition pct (cur prev : float) : float := cur / prev - 1.

(** [data / data.shift(1) - 1]: the first row has nothing before it. *)
Fixpoint pct_from (prev : list float) (rs : list (Z * list float))
  : list (Z * list float) :=
  match rs with
  | [] => []
  | (d, r) :: rs' => (d, map2 pct r prev) :: pct_from r rs'
  end.

Definition pct_change (fill : fill_method) (rs : list (Z * list float))
  : list (Z * list float) :=
  let data := match fill with pad => ffill rs | no_fill => rs end in
  match data with
  | [] => []
  | (_, r) :: _ => pct_from (nan_row r) data
  end.

(** [dropna(how="all")] *)
Definition dropna_all (rs : list (Z * list float)) : list (Z * list float) :=
  filter (fun r => negb (forallb is_nan (snd r))) rs.

(** ** compute_daily_returns *)

Definition compute_daily_returns (fill : fill_method) (price_history : Frame)
  : Frame :=
  if empty price_history then no_frame
  else {| labels := labels price_history;
          body := dropna_all (pct_change fill (sort_index (body price_history))) |}.

(** ** Column statistics

    The libraries do not add the entries of a column in one order:
    bottleneck, and numpy on fewer than 8 entries, add from left to right,
    numpy adds longer columns pairwise.  The statistics of a column take
    the sum they use as a parameter, [total]; [fsum] is the sum from 0,
    left to right. *)

(** A row count as a float. *)
Definition float_of_count (n : nat) : float :=
  of_uint63 (Uint63.of_Z (Z.of_nat n)).

(** [trading_days] as numpy takes it to binary64 before the square root:
    the float nearest to the integer.  (On an integer that does not fit in
    64 bits numpy raises instead.) *)
Definition float_of_int (z : Z) : float :=
  SF2Prim (binary_normalize prec emax z 0 false).

Definition fsum (xs : list float) : float := fold_left PrimFloat.add xs 0.

Definition observations (col : list float) : list float :=
  filter (fun x => negb (is_nan x)) col.

(** [Series.var()]: [ddof = 1], missing entries skipped, NaN when fewer
    than two observations are left. *)
Definition nanvar_by (total : list float -> float) (col : list float) : float :=
  let xs := observations col in
  let count := List.length xs in
  if (count <=? 1)%nat then nan
  else
    let avg := total xs / float_of_count count in
    let sqr := total (map (fun x => (avg - x) * (avg - x)) xs) in
    sqr / (float_of_count count - 1).

(** [Series.std()] *)
Definition nanstd_by (total : list float -> float) (col : list float) : float :=
  PrimFloat.sqrt (nanvar_by total col).

(** ** annualized_volatility *)

Definition annualized_volatility_by (total : list float -> float)
    (returns : Frame) (trading_days : Z) : list (string * float) :=
  if empty returns then []
  else
    map (fun c => (fst c, nanstd_by total (snd c)
                          * PrimFloat.sqrt (float_of_int trading_days)))
        (columns returns).

Definition annualized_volatility (returns : Frame) (trading_days : Z)
  : list (string * float) :=
  annualized_volatility_by fsum returns trading_days.

(** [DataFrame.cov()]: [ddof = 1], each pair of columns over the rows where
    both are present. *)
Definition both_present (xs ys : list float) : list (float * float) :=
  filter (fun p => negb (is_nan (fst p)) && negb (is_nan (snd p)))
         (combine xs ys).

Definition cov_pair (xs ys : list float) : float :=
  let ps := both_present xs ys in
  let n := List.length ps in
  if (n =? 0)%nat then nan
  else
    let mx := fsum (map fst ps) / float_of_count n in
    let my := fsum (map snd ps) / float_of_count n in
    fsum (map (fun p => (fst p - mx) * (snd p - my)) ps)
      / (float_of_count n - 1).

Definition cov (f : Frame) : list (list float) :=
  map (fun ci => map (fun cj => cov_pair (snd ci) (snd cj)) (columns f))
      (columns f).

(** [np.dot] on two vectors, and on a matrix and a vector. *)
Definition dot (xs ys : list float) : float :=
  fold_left (fun acc p => acc + fst p * snd p) (combine xs ys) 0.

Definition matvec (m : list (list float)) (v : list float) : list float :=
  map (fun row => dot row v) m.

(** ** portfolio_volatility *)

Definition weights_mismatch : string :=
  "Number of weights must match number of columns in returns.".

Definition daily_var (returns : Frame) (w : list float) : float :=
  dot w (matvec (cov returns) w).

Definition portfolio_volatility (returns : Frame) (weights : list float)
    (trading_days : Z) : result (option float) :=
  if empty returns then Ok None
  else
    let w := weights in
    if negb (shape1 returns =? List.length w)%nat then
      Raise (ValueError weights_mismatch)
    else
      let var := daily_var returns w in
      if (var <? 0)%float then Ok None
      else Ok (Some (PrimFloat.sqrt var * PrimFloat.sqrt (float_of_int trading_days))).

(** ** Classes of binary64 values

    Stated on the specification floats that [Prim2SF] gives.  Both zeros
    count as not negative. *)

(** What a rounding produces: never NaN, and of the sign it was asked for. *)
Definition signed (s : bool) (x : spec_float) : Prop :=
  match x with
  | S754_zero s' | S754_infinity s' | S754_finite s' _ _ => s' = s
  | S754_nan => False
  end.

Definition sf_defined (x : spec_float) : Prop :=
  match x with S754_nan => False | _ => True end.

Definition sf_finite (x : spec_float) : Prop :=
  match x with S754_zero _ | S754_finite _ _ _ => True | _ => False end.

Definition sf_nonneg (x : spec_float) : Prop :=
  match x with
  | S754_zero _ => True
  | S754_infinity s | S754_finite s _ _ => s = false
  | S754_nan => False
  end.

Definition sf_posfin (x : spec_float) : Prop :=
  match x with S754_finite false _ _ => True | _ => False end.

(** ** The specification's reading of the risk functions

    [daily_returns] in the specification's words: sort by date, take each
    row against the row before it, ticker by ticker, as the change
    [cur / prev - 1], which leaves the first row out and leaves a return
    undefined where either price is missing, and keep the rows in which
    some ticker has a value.  Nothing is filled in. *)

Fixpoint row_over_row (rs : list (Z * list float)) : list (Z * list float) :=
  match rs with
  | [] => []
  | prev :: rest =>
      match rest with
      | [] => []
      | (d, cur) :: _ =>
          (d, map2 (fun c p => c / p - 1) cur (snd prev)) :: row_over_row rest
      end
  end.

Definition some_defined (r : Z * list float) : bool :=
  existsb (fun x => negb (is_nan x)) (snd r).

Definition daily_returns (prices : Frame) : Frame :=
  if empty prices then no_frame
  else {| labels := labels prices;
          body := filter some_defined (row_over_row (sort_index (body prices))) |}.

(** A price history with a price for every ticker on every date. *)
Definition complete (prices : Frame) : bool :=
  forallb (fun r => (List.length (snd r) =? shape1 prices)%nat
                    && forallb (fun x => negb (is_nan x)) (snd r))
          (body prices).

(** The rows that [pct_change] differences: forward-filled or as they are. *)
Definition filled (fill : fill_method) (rs : list (Z * list float))
  : list (Z * list float) :=
  match fill with pad => ffill rs | no_fill => rs end.

(** A price history sorted by date, each missing price replaced by the last
    price of the ticker before it. *)
Definition forward_filled (prices : Frame) : Frame :=
  {| labels := labels prices; body := ffill (sort_index (body prices)) |}.

(** The sample variance in the specification's words, in any arithmetic
    and for any way of adding: the squared deviations from the mean, added
    up, over [N - 1]. *)
Section SampleStatistics.

Context {T : Type} `{Number T}.
Variable total : list T -> T.
Variable of_count : nat -> T.

Local Open Scope num_scope.

Definition mean (xs : list T) : T :=
  total xs / of_count (List.length xs).

Definition sample_variance (xs : list T) : T :=
  total (map (fun x => (x - mean xs) * (x - mean xs)) xs)
  / (of_count (List.length xs) - of_count 1).

End SampleStatistics.

(** The return column of the ticker in column [j]: its returns from the
    first date to the last, the missing ones left out. *)
Fixpoint ticker_returns (j : nat) (rows : list (Z * list float)) : list float :=
  match rows with
  | [] => []
  | (_, r) :: rows' =>
      match nth_error r j with
      | Some x =>
          if is_nan x then ticker_returns j rows'
          else x :: ticker_returns j rows'
      | None => ticker_returns j rows'
      end
  end.

(** The sample standard deviation: undefined on fewer than two
    observations. *)
Definition sample_std (total : list float -> float) (xs : list float)
  : option float :=
  if (List.length xs <? 2)%nat then None
  else Some (PrimFloat.sqrt (sample_variance total float_of_count xs)).

(** Times the square root of [trading_days], a positive machine integer. *)
Definition annualized (trading_days : Z) (s : option float) : float :=
  match s with
  | Some v => v * PrimFloat.sqrt (of_uint63 (Uint63.of_Z trading_days))
  | None => nan
  end.

(** A way of adding that keeps the sign: values that are not NaN and not
    below zero add up to such a value.  Every order of additions does. *)
Definition adds_up (total : list float -> float) : Prop :=
  forall ys,
    forallb (fun y => negb (is_nan y) && negb (y <? 0)) ys = true ->
    is_nan (total ys) = false /\ (total ys <? 0) = false.

(** A count and a sum in exact arithmetic. *)
Definition count_exact (n : nat) : Q := inject_Z (Z.of_nat n).

Definition sum_exact (xs : list Q) : Q := fold_right Qplus 0%Q xs.

(** ** Inputs the properties are tried on *)

Set Warnings "-inexact-float".

(** The market value a position brings to the total in exact arithmetic:
    0 when it has none. *)
Definition brought (p : Position Q) : Q :=
  match market_value p with Some mv => mv | None => 0%Q end.

(** Two priced positions, in binary64 and in exact arithmetic. *)
Definition two_priced : Portfolio float :=
  {| positions :=
       [ {| ticker := "AAA"; quantity := 10; avg_cost := 100;
            latest_price := Some 110; sector := None |};
         {| ticker := "BBB"; quantity := 5; avg_cost := 200;
            latest_price := Some 180; sector := None |} ] |}.

Definition two_priced_exact : Portfolio Q :=
  {| positions :=
       [ {| ticker := "AAA"; quantity := 10%Q; avg_cost := 100%Q;
            latest_price := Some 110%Q; sector := None |};
         {| ticker := "BBB"; quantity := 5%Q; avg_cost := 200%Q;
            latest_price := Some 180%Q; sector := None |} ] |}.

(** One priced position and one without a price. *)
Definition one_unpriced : Portfolio float :=
  {| positions :=
       [ {| ticker := "AAA"; quantity := 10; avg_cost := 100;
            latest_price := Some 110; sector := None |};
         {| ticker := "NEW"; quantity := 3; avg_cost := 20;
            latest_price := None; sector := None |} ] |}.

(** A hedged book: 100 shares long at 8.05 against 500 short at 1.61.  In
    decimal arithmetic the two market values cancel. *)
Definition hedged_book : Portfolio float :=
  {| positions :=
       [ {| ticker := "LNG"; quantity := 100; avg_cost := 8;
            latest_price := Some 8.05; sector := None |};
         {| ticker := "SHT"; quantity := -500; avg_cost := 1.6;
            latest_price := Some 1.61; sector := None |} ] |}.

(** Four closing prices of one ticker, and of two. *)
Definition rising_prices : Frame :=
  {| labels := ["AAA"%string];
     body := [ (0%Z, [100]); (1%Z, [101]); (2%Z, [102]); (3%Z, [103]) ] |}.

Definition two_tickers : Frame :=
  {| labels := ["AAA"%string; "BBB"%string];
     body := [ (0%Z, [100; 50]); (1%Z, [101; 49]);
               (2%Z, [102; 51]); (3%Z, [103; 52]) ] |}.

(** The same, with no price for BBB on day 1. *)
Definition missed_day : Frame :=
  {| labels := ["AAA"%string; "BBB"%string];
     body := [ (0%Z, [100; 50]); (1%Z, [101; nan]);
               (2%Z, [102; 51]); (3%Z, [103; 52]) ] |}.

(** One closing price per ticker: its return table has two columns and no
    row. *)
Definition single_day : Frame :=
  {| labels := ["AAA"%string; "BBB"%string]; body := [ (0%Z, [100; 50]) ] |}.

(** Two daily returns of one ticker. *)
Definition two_returns : Frame :=
  {| labels := ["AAA"%string]; body := [ (0%Z, [0.01]); (1%Z, [0.03]) ] |}.

(** Two return columns that add up to 0.03 on each day. *)
Definition offsetting_returns : Frame :=
  {| labels := ["AAA"%string; "BBB"%string];
     body := [ (0%Z, [-0.02; 0.05]); (1%Z, [0.04; -0.01]);
               (2%Z, [0.02; 0.01]) ] |}.

(** ** Portfolio.from_dataframe and load_portfolio_csv

    What [str] makes of a number, what [float] makes of a text, and what
    either makes of a missing entry ([None] or NaN, which the frame does not
    tell apart) are left to the caller of the model. *)

Definition ascii_upper (c : ascii) : ascii :=
  let n := nat_of_ascii c in
  if ((97 <=? n) && (n <=? 122))%nat then ascii_of_nat (n - 32) else c.

(** [str.upper()] on ASCII text, where it maps a-z to A-Z and nothing
    else.  On other text Python also maps the letters beyond a-z, which
    this leaves as they are: what is stated of the case of a ticker is
    stated of ASCII text. *)
Fixpoint upper (s : string) : string :=
  match s with
  | EmptyString => EmptyString
  | String c s' => String (ascii_upper c) (upper s')
  end.

(** Text of ASCII characters only. *)
Definition ascii_text (s : string) : bool :=
  forallb (fun c => (nat_of_ascii c <? 128)%nat) (list_ascii_of_string s).

(** [key in df.columns] *)
Definition has_column {T : Type} (df : DataFrame T) (key : string) : bool :=
  existsb (String.eqb key) (map fst df).

(** The number of rows: the length of the columns. *)
Definition nrows {T : Type} (df : DataFrame T) : nat :=
  match df with
  | [] => 0%nat
  | (_, col) :: _ => List.length col
  end.

(** [df.iterrows()]: the rows from top to bottom, each with the labels of
    the frame. *)
Fixpoint rows_from {T : Type} (n : nat) (df : DataFrame T) : list (record T) :=
  match n with
  | O => []
  | S n' =>
      map (fun kc => (fst kc, hd CNone (snd kc))) df
      :: rows_from n' (map (fun kc => (fst kc, tl (snd kc))) df)
  end.

Definition iterrows {T : Type} (df : DataFrame T) : list (record T) :=
  rows_from (nrows df) df.

(** [row[key]] *)
Definition row_item {T : Type} (row : record T) (key : string)
  : result (cell T) :=
  match lookup key row with
  | Some c => Ok c
  | None => Raise (KeyError key)
  end.

Section FromDataframe.

Variable float_of_text : string -> result float.
Variable text_of_float : float -> string.
Variable float_of_missing : result float.
Variable text_of_missing : string.

Local Open Scope result_scope.
Local Open Scope string_scope.

(** [float(x)] and [str(x)] on the entry of a row. *)
Definition py_float (c : cell float) : result float :=
  match c with
  | CNum x => Ok x
  | CStr s => float_of_text s
  | CNone => float_of_missing
  end.

Definition py_str (c : cell float) : string :=
  match c with
  | CStr s => s
  | CNum x => text_of_float x
  | CNone => text_of_missing
  end.

Definition position_of_row (df : DataFrame float) (row : record float)
  : result (Position float) :=
  t <- row_item row "ticker" ;;
  q <- row_item row "quantity" ;;
  q' <- py_float q ;;
  a <- row_item row "avg_cost" ;;
  a' <- py_float a ;;
  price <- (if has_column df "latest_price" then
              c <- row_item row "latest_price" ;;
              if notna c then x <- py_float c ;; Ok (Some x) else Ok None
            else Ok None) ;;
  sec <- (if has_column df "sector" then
            c <- row_item row "sector" ;;
            if notna c then Ok (Some (py_str c)) else Ok None
          else Ok None) ;;
  Ok {| ticker := upper (py_str t);
        quantity := q';
        avg_cost := a';
        latest_price := price;
        sector := sec |}.

Fixpoint positions_of_rows (df : DataFrame float) (rows : list (record float))
  : result (list (Position float)) :=
  match rows with
  | [] => Ok []
  | row :: rows' =>
      p <- position_of_row df row ;;
      ps <- positions_of_rows df rows' ;;
      Ok (p :: ps)
  end.

Definition from_dataframe (df : DataFrame float) : result (Portfolio float) :=
  ps <- positions_of_rows df (iterrows df) ;;
  Ok {| positions := ps |}.

End FromDataframe.

(** [io_utils.py] *)

Definition REQUIRED_COLUMNS : list string :=
  ["ticker"; "quantity"; "avg_cost"]%string.

(** [repr] of a list of plain words, as an f-string prints it. *)
Definition repr_words (ws : list string) : string :=
  ("[" ++ String.concat ", " (map (fun w => "'" ++ w ++ "'") ws) ++ "]")%string.

(** [load_portfolio_csv], from the frame that [pd.read_csv(path)] returned. *)
Definition load_portfolio_csv {T : Type} (df : DataFrame T)
  : result (DataFrame T) :=
  let missing := filter (fun c => negb (has_column df c)) REQUIRED_COLUMNS in
  match missing with
  | [] => Ok df
  | _ =>
      Raise (ValueError
               ("Portfolio CSV is missing required columns: "
                ++ repr_words missing)%string)
  end.

(** The columns of a report, as functions of a position: [frame_of] is the
    table of these fields. *)
Definition table_of {T P : Type} (fields : list (string * (P -> cell T)))
    (ps : list P) : DataFrame T :=
  map (fun kf => (fst kf, map (snd kf) ps)) fields.

Definition row_of_fields {T P : Type} (fields : list (string * (P -> cell T)))
    (p : P) : record T :=
  map (fun kf => (fst kf, snd kf p)) fields.

Definition report_fields {T : Type} `{Number T}
  : list (string * (Position T -> cell T)) :=
  [ ("ticker", fun p => CStr (ticker p));
    ("quantity", fun p => CNum (quantity p));
    ("avg_cost", fun p => CNum (avg_cost p));
    ("cost_basis", fun p => CNum (cost_basis p));
    ("latest_price", fun p => opt_num (latest_price p));
    ("market_value", fun p => opt_num (market_value p));
    ("unrealized_pl", fun p => opt_num (unrealized_pl p));
    ("unrealized_pl_pct", fun p => opt_num (pl_pct p));
    ("sector", fun p => opt_str (sector p)) ]%string.

(** The profit a position brings in exact arithmetic: 0 without a price. *)
Definition gained (p : Position Q) : Q :=
  match unrealized_pl p with Some v => v | None => 0%Q end.

(** A value that is not NaN and not positive; both zeros count. *)
Definition sf_nonpos (x : spec_float) : Prop :=
  match x with
  | S754_zero _ => True
  | S754_infinity s | S754_finite s _ _ => s = true
  | S754_nan => False
  end.

(** A value that is NaN or not negative. *)
Definition sf_not_negative (x : spec_float) : Prop :=
  match x with S754_nan => True | _ => sf_nonneg x end.

(** Stand-ins for [float] on text and [str] on numbers where an example
    needs them: no text spells a number, and every number prints alike. *)
Definition no_number (s : string) : result float :=
  Raise (ValueError ("could not convert string to float: " ++ s)%string).

Definition any_text (x : float) : string := "0.0"%string.

(** A holdings file with three rows, the second without a price, and the
    ticker of the third in lower case. *)
Definition holdings : DataFrame float :=
  [ ("ticker"%string, [CStr "AAA"; CStr "BBB"; CStr "ccc"]);
    ("quantity"%string, [CNum 10; CNum 5; CNum 2]);
    ("avg_cost"%string, [CNum 100; CNum 200; CNum 50]);
    ("latest_price"%string, [CNum 110; CNone; CNum nan]) ]%float.

(** The same without its quantity column. *)
Definition holdings_without_quantity : DataFrame float :=
  [ ("ticker"%string, [CStr "AAA"; CStr "BBB"]);
    ("avg_cost"%string, [CNum 100; CNum 200]) ]%float.

(** Two closing prices of one ticker: one row of returns. *)
Definition two_days : Frame :=
  {| labels := ["AAA"%string];
     body := [ (0%Z, [100]); (1%Z, [101]) ]%float |}.

(** * Properties *)

Unset Implicit Arguments.

(** ** Positions and totals *)

Section ValuationFacts.

Context {T : Type} `{Number T}.
Local Open Scope num_scope.
Local Open Scope result_scope.

Lemma py_truediv_nonzero (x y : T) :
  (y =? n0) = false -> py_truediv x y = Ok (x / y).
Proof. intros Hy. unfold py_truediv. now rewrite Hy. Qed.

(** The guard of [unrealized_pl_pct] is the test on which the division
    would raise: the property never raises. *)
Lemma unrealized_pl_pct_value (p : Position T) :
  unrealized_pl_pct p =
  Ok (match unrealized_pl p with
      | None => None
      | Some pl =>
          if cost_basis p =? n0 then None
          else Some (pl / cost_basis p * n100)
      end).
Proof.
  unfold unrealized_pl_pct.
  destruct (unrealized_pl p) as [pl|]; [|reflexivity].
  destruct (cost_basis p =? n0) eqn:Hcb; [reflexivity|].
  now rewrite (py_truediv_nonzero _ _ Hcb).
Qed.

Lemma total_unrealized_pl_pct_value (pf : Portfolio T) :
  total_unrealized_pl_pct pf =
  Ok (match total_unrealized_pl pf with
      | None => None
      | Some pl =>
          if total_cost_basis pf =? n0 then None
          else Some (pl / total_cost_basis pf * n100)
      end).
Proof.
  unfold total_unrealized_pl_pct.
  destruct (total_unrealized_pl pf) as [pl|]; [|reflexivity].
  destruct (total_cost_basis pf =? n0) eqn:Hcb; [reflexivity|].
  now rewrite (py_truediv_nonzero _ _ Hcb).
Qed.

(** C1.  For every position: [cost_basis] is [quantity * avg_cost]; with a
    price, [market_value] is [quantity * latest_price] and [unrealized_pl]
    is [market_value - cost_basis]; without a price both are [None], not
    zero; [unrealized_pl_pct] is [unrealized_pl / cost_basis * 100], and it
    is [None] exactly when [cost_basis == 0] or [unrealized_pl] is [None].
    It never raises. *)
Theorem position_derived_fields (p : Position T) :
  cost_basis p = quantity p * avg_cost p
  /\ (forall price, latest_price p = Some price ->
        market_value p = Some (quantity p * price)
        /\ unrealized_pl p = Some (quantity p * price - cost_basis p))
  /\ (latest_price p = None ->
        market_value p = None /\ unrealized_pl p = None)
  /\ (forall pl, unrealized_pl p = Some pl ->
        (cost_basis p =? n0) = false ->
        unrealized_pl_pct p = Ok (Some (pl / cost_basis p * n100)))
  /\ (unrealized_pl_pct p = Ok None <->
        (cost_basis p =? n0) = true \/ unrealized_pl p = None).
Proof.
  split; [reflexivity|].
  split.
  { intros price Hp. unfold unrealized_pl, market_value. now rewrite Hp. }
  split.
  { intros Hp. unfold unrealized_pl, market_value. now rewrite Hp. }
  split.
  { intros pl Hpl Hcb. rewrite unrealized_pl_pct_value, Hpl, Hcb. reflexivity. }
  rewrite unrealized_pl_pct_value.
  destruct (unrealized_pl p) as [pl|].
  - destruct (cost_basis p =? n0); split; intros Hx.
    + now left.
    + reflexivity.
    + discriminate.
    + destruct Hx; discriminate.
  - split; intros _; [now right | reflexivity].
Qed.

(** [defined_values] keeps, in order, the market values that are not
    [None]. *)
Lemma defined_values_filter (ps : list (Position T)) :
  map Some (defined_values ps) =
  filter (fun o => match o with Some _ => true | None => false end)
         (map market_value ps).
Proof.
  induction ps as [|p ps IH]; [reflexivity|].
  simpl. destruct (market_value p); simpl; now rewrite IH.
Qed.

Lemma defined_values_nil (ps : list (Position T)) :
  defined_values ps = [] <-> forall p, In p ps -> market_value p = None.
Proof.
  induction ps as [|q ps IH]; simpl.
  - split; [intros _ p [] | reflexivity].
  - destruct (market_value q) eqn:Hq.
    + split; [discriminate|].
      intros Hall. specialize (Hall q (or_introl eq_refl)). congruence.
    + rewrite IH. split.
      * intros Hall p [<-|Hin]; auto.
      * intros Hall p Hin. apply Hall. now right.
Qed.

(** The totals, whatever the arithmetic. *)
Lemma totals_of_positions (pf : Portfolio T) :
  total_cost_basis pf = py_sum (map cost_basis (positions pf))
  /\ total_cost_basis {| positions := @nil (Position T) |} = n0
  /\ (total_market_value pf = None <->
        forall p, In p (positions pf) -> market_value p = None)
  /\ ((exists p, In p (positions pf) /\ market_value p <> None) ->
        total_market_value pf = Some (py_sum (defined_values (positions pf))))
  /\ map Some (defined_values (positions pf)) =
        filter (fun o => match o with Some _ => true | None => false end)
               (map market_value (positions pf)).
Proof.
  split; [reflexivity|].
  split; [reflexivity|].
  split.
  { rewrite <- defined_values_nil. unfold total_market_value.
    destruct (defined_values (positions pf)); split; congruence. }
  split; [|apply defined_values_filter].
  intros (p & Hin & Hp). unfold total_market_value.
  destruct (defined_values (positions pf)) eqn:Hd; [|reflexivity].
  exfalso. apply Hp. now apply (proj1 (defined_values_nil _) Hd).
Qed.

(** ** The report *)

Lemma position_record_value (p : Position T) :
  position_record p = Ok (record_of p).
Proof. unfold position_record. now rewrite unrealized_pl_pct_value. Qed.

Lemma position_records_value (ps : list (Position T)) :
  position_records ps = Ok (map record_of ps).
Proof.
  induction ps as [|p ps IH]; [reflexivity|].
  simpl. now rewrite position_record_value, IH.
Qed.

Lemma record_keys_of (p : Position T) (ps : list (Position T)) :
  record_keys (map record_of (p :: ps)) = map fst (record_of p).
Proof.
  unfold record_keys. simpl fold_left.
  change (add_keys [] (record_of p)) with (map fst (record_of p)).
  induction ps as [|q ps IH]; [reflexivity|].
  simpl fold_left.
  change (add_keys (map fst (record_of p)) (record_of q))
    with (map fst (record_of p)).
  exact IH.
Qed.

Lemma column_of_records (key : string) (f : Position T -> cell T)
    (ps : list (Position T)) :
  (forall p, lookup key (record_of p) = Some (f p)) ->
  map (fun r => match lookup key r with Some c => c | None => CNone end)
      (map record_of ps) = map f ps.
Proof.
  intros Hk. rewrite map_map. apply map_ext. intros p. now rewrite Hk.
Qed.

Lemma pd_DataFrame_of (p : Position T) (ps : list (Position T)) :
  pd_DataFrame (map record_of (p :: ps)) = frame_of (p :: ps).
Proof.
  unfold pd_DataFrame. rewrite record_keys_of.
  generalize (p :: ps). intros l.
  cbn [map fst record_of]. unfold frame_of.
  repeat (f_equal; [f_equal; apply column_of_records; intros; reflexivity|]).
  do 2 f_equal. apply column_of_records. intros; reflexivity.
Qed.

Lemma weights_series (total : T) (ps : list (Position T)) :
  series_map (fun x => x / total * n100)
    (fillna n0 (map (fun p => opt_num (market_value p)) ps))
  = map (fun p => CNum (weight_of total p)) ps.
Proof.
  unfold series_map, fillna. rewrite !map_map. apply map_ext. intros p.
  unfold weight_of. destruct (market_value p) as [mv|]; simpl; [|reflexivity].
  now destruct (nisnan mv).
Qed.

(** What [to_dataframe] returns on a portfolio that has a position. *)
Lemma to_dataframe_value (pf : Portfolio T) :
  positions pf <> [] ->
  to_dataframe pf =
  Ok (if weights_computed pf
      then frame_of (positions pf)
             ++ [("weight_pct"%string,
                  map (fun p => CNum (weight_of (total_value_used pf) p))
                      (positions pf))]
      else frame_of (positions pf)).
Proof.
  intros Hne. unfold to_dataframe, weights_computed, total_value_used, market_values.
  rewrite position_records_value. cbn [bind].
  destruct (positions pf) as [|p ps]; [congruence|].
  rewrite pd_DataFrame_of.
  change (getitem (frame_of (p :: ps)) "market_value")
    with (Ok (map (fun q : Position T => opt_num (market_value q)) (p :: ps))).
  cbn [bind].
  destruct (series_any _); [|reflexivity].
  cbn [andb].
  destruct (n0 <? _); [|reflexivity].
  rewrite weights_series. reflexivity.
Qed.

(** C4.  On the empty portfolio [total_cost_basis] is 0 and
    [total_market_value] is [None], but [to_dataframe] does not return a
    report without weights: the frame of no record has no column, and
    reading its market-value column raises [KeyError]. *)
Theorem empty_portfolio_report :
  let pf := {| positions := @nil (Position T) |} in
  total_cost_basis pf = n0
  /\ total_market_value pf = None
  /\ to_dataframe pf = Raise (KeyError "market_value").
Proof. repeat split. Qed.

(** ** Calls and the memory *)

Lemma keeps_ret {A : Type} (a : A) : keeps_positions (T:=T) (st_ret a).
Proof. intros m. reflexivity. Qed.

Lemma keeps_lift {A : Type} (r : result A) :
  keeps_positions (T:=T) (st_lift r).
Proof. intros m. reflexivity. Qed.

Lemma keeps_bind {A B : Type} (c : stateful T A) (k : A -> stateful T B) :
  keeps_positions (T:=T) c -> (forall a, keeps_positions (T:=T) (k a)) ->
  keeps_positions (T:=T) (st_bind c k).
Proof.
  intros Hc Hk m. unfold st_bind. specialize (Hc m).
  destruct (c m) as [[a|e] m']; cbn [snd] in *.
  - now rewrite Hk.
  - exact Hc.
Qed.

Lemma keeps_read_positions : keeps_positions (T:=T) read_positions.
Proof. intros m. reflexivity. Qed.

Lemma keeps_read_rows : keeps_positions (T:=T) read_rows.
Proof. intros m. reflexivity. Qed.

Lemma keeps_read_df : keeps_positions (T:=T) read_df.
Proof. intros m. reflexivity. Qed.

Lemma keeps_assign_rows (rows : list (record T)) :
  keeps_positions (T:=T) (assign_rows rows).
Proof. intros m. reflexivity. Qed.

Lemma keeps_assign_df (df : DataFrame T) : keeps_positions (T:=T) (assign_df df).
Proof. intros m. reflexivity. Qed.

Ltac keeps :=
  repeat first
    [ apply keeps_ret | apply keeps_lift | apply keeps_read_positions
    | apply keeps_read_rows | apply keeps_read_df | apply keeps_assign_rows
    | apply keeps_assign_df
    | apply keeps_bind; [|intros ?]
    | match goal with |- keeps_positions (if ?b then _ else _) => destruct b end ].

Lemma keeps_append_rows (ps : list (Position T)) :
  keeps_positions (T:=T) (append_rows ps).
Proof. induction ps as [|p ps IH]; cbn [append_rows]; keeps. exact IH. Qed.

Lemma keeps_run_to_dataframe : keeps_positions (T:=T) run_to_dataframe.
Proof. unfold run_to_dataframe. keeps. apply keeps_append_rows. Qed.

Lemma keeps_call (op : operation) : keeps_positions (T:=T) (call op).
Proof.
  destruct op; cbn [call];
    [apply keeps_bind; [apply keeps_run_to_dataframe|intros ?]|..]; keeps.
Qed.

(** The loop leaves in [rows] the records of the positions, in order. *)
Lemma append_rows_value (ps : list (Position T)) (m : memory T) :
  append_rows ps m
  = (Ok tt, {| self_positions := self_positions m;
               local_rows := local_rows m ++ map record_of ps;
               local_df := local_df m |}).
Proof.
  revert m. induction ps as [|p ps IH]; intros m.
  - cbn [append_rows map st_ret]. rewrite app_nil_r. now destruct m.
  - cbn [append_rows]. unfold st_bind at 1, st_lift.
    rewrite position_record_value.
    unfold st_bind at 1, read_rows. unfold st_bind at 1, assign_rows.
    rewrite IH. cbn [self_positions local_rows local_df map].
    now rewrite <- app_assoc.
Qed.

(** Statement by statement, [to_dataframe] returns what the function
    returns. *)
Lemma run_to_dataframe_value (m : memory T) :
  fst (run_to_dataframe m) = to_dataframe {| positions := self_positions m |}.
Proof.
  unfold run_to_dataframe, to_dataframe.
  unfold st_bind at 1, assign_rows. unfold st_bind at 1, read_positions.
  cbn [self_positions]. unfold st_bind at 1. rewrite append_rows_value.
  cbn [self_positions local_rows local_df app positions].
  rewrite position_records_value. cbn [bind].
  unfold st_bind at 1, read_rows. cbn [local_rows].
  unfold st_bind at 1, assign_df. unfold st_bind at 1, read_df.
  cbn [local_df]. unfold st_bind at 1, st_lift.
  destruct (getitem (pd_DataFrame (map record_of (self_positions m)))
              "market_value") as [mv|e]; [|reflexivity].
  cbn [bind]. destruct (series_any (map notna mv)); [|reflexivity].
  destruct (n0 <? series_sum (fillna n0 mv)); reflexivity.
Qed.


End ValuationFacts.

Lemma position_derived_fields_witness :
  let p := {| ticker := "AAA"; quantity := 10%float; avg_cost := 100%float;
              latest_price := Some 110%float; sector := None |} in
  market_value p = Some 1100%float
  /\ unrealized_pl p = Some 100%float
  /\ unrealized_pl_pct p = Ok (Some 10%float).
Proof.
  intros p.
  destruct (position_derived_fields p) as (Hcb & Hprice & _ & Hpct & _).
  destruct (Hprice 110%float eq_refl) as [Hmv Hpl].
  split; [exact Hmv|]. split; [exact Hpl|].
  apply (Hpct 100%float Hpl). reflexivity.
Defined.

(** ** Weights in exact arithmetic *)

Section ExactWeights.

Local Open Scope Q_scope.

Lemma Qsum_shift (xs : list Q) (a : Q) :
  fold_left Qplus xs a == a + fold_left Qplus xs 0.
Proof.
  revert a. induction xs as [|x xs IH]; intros a; simpl.
  - ring.
  - rewrite (IH (a + x)), (IH (0 + x)). ring.
Qed.

Lemma Qsum_scaled (t : Q) (xs : list Q) (a : Q) :
  ~ t == 0 ->
  fold_left Qplus (map (fun x => x / t * 100) xs) a
  == a + fold_left Qplus xs 0 / t * 100.
Proof.
  intros Ht. revert a. induction xs as [|x xs IH]; intros a; simpl.
  - field. exact Ht.
  - rewrite (IH (a + x / t * 100)), (Qsum_shift xs (0 + x)). field. exact Ht.
Qed.

Lemma exact_total (pf : Portfolio Q) :
  total_value_used pf = fold_left Qplus (map brought (positions pf)) 0.
Proof.
  unfold total_value_used, series_sum, market_values, fillna. f_equal.
  induction (positions pf) as [|p ps IH]; [reflexivity|].
  cbn [map]. unfold brought at 1.
  destruct (market_value p); cbn; now rewrite <- IH.
Qed.

Lemma exact_weights (t : Q) (ps : list (Position Q)) :
  series_sum (map (fun p => CNum (weight_of t p)) ps)
  = fold_left Qplus (map (fun x => x / t * 100) (map brought ps)) 0.
Proof.
  unfold series_sum. f_equal.
  induction ps as [|p ps IH]; [reflexivity|].
  cbn [map numbers nisnan exact]. rewrite IH. unfold weight_of, brought.
  destruct (market_value p); reflexivity.
Qed.

Lemma exact_positive (t : Q) : nltb 0 t = true -> ~ t == 0.
Proof.
  simpl. intros Hlt Heq.
  assert (Hle : Qle_bool t 0 = true).
  { apply Qle_bool_iff. rewrite Heq. apply Qle_refl. }
  now rewrite Hle in Hlt.
Qed.

Lemma exact_weights_sum (pf : Portfolio Q) :
  weights_computed pf = true ->
  series_sum (map (fun p => CNum (weight_of (total_value_used pf) p))
                  (positions pf)) == 100.
Proof.
  unfold weights_computed. intros Hw.
  apply andb_prop in Hw. destruct Hw as [_ Hpos].
  apply exact_positive in Hpos.
  rewrite exact_weights, (Qsum_scaled _ _ _ Hpos), <- exact_total.
  field. exact Hpos.
Qed.

Lemma Qsum_defined_values (ps : list (Position Q)) (a : Q) :
  fold_left Qplus (defined_values ps) a
  == fold_left Qplus (map brought ps) a.
Proof.
  revert a. induction ps as [|p ps IH]; intros a; [reflexivity|].
  cbn [defined_values map]. unfold brought at 1.
  destruct (market_value p) as [mv|]; cbn [fold_left].
  - apply IH.
  - rewrite IH, (Qsum_shift _ a), (Qsum_shift _ (a + 0)). ring.
Qed.

End ExactWeights.

(** C2.  [total_cost_basis] is the sum of [cost_basis] over the positions,
    0 when there is none; [total_market_value] is [None] exactly when no
    position has a market value, and otherwise the sum of the market values
    that are defined, so that a position without a price leaves the total
    defined; in exact arithmetic that sum is the sum in which such a
    position counts for 0. *)
Theorem portfolio_totals :
  (forall (T : Type) (N : Number T) (pf : Portfolio T),
      total_cost_basis pf = py_sum (map cost_basis (positions pf))
      /\ total_cost_basis {| positions := @nil (Position T) |} = n0
      /\ (total_market_value pf = None <->
            forall p, In p (positions pf) -> market_value p = None)
      /\ ((exists p, In p (positions pf) /\ market_value p <> None) ->
            total_market_value pf
            = Some (py_sum (defined_values (positions pf))))
      /\ map Some (defined_values (positions pf)) =
            filter (fun o => match o with Some _ => true | None => false end)
                   (map market_value (positions pf)))
  /\ (forall pf : Portfolio Q,
        (py_sum (defined_values (positions pf))
         == py_sum (map brought (positions pf)))%Q).
Proof.
  split.
  - intros T N pf. apply totals_of_positions.
  - intros pf. apply Qsum_defined_values.
Qed.

Lemma portfolio_totals_witness :
  total_market_value one_unpriced = Some 1100%float
  /\ total_cost_basis one_unpriced = 1060%float.
Proof.
  destruct (proj1 portfolio_totals float binary64 one_unpriced)
    as (Hcb & _ & _ & Hmv & _).
  split.
  - rewrite Hmv; [reflexivity|].
    eexists. split; [left; reflexivity|discriminate].
  - rewrite Hcb. reflexivity.
Defined.

Lemma weights_computed_nonempty {T : Type} `{Number T} (pf : Portfolio T) :
  weights_computed pf = true -> positions pf <> [].
Proof.
  unfold weights_computed, market_values. intros Hw Hnil.
  rewrite Hnil in Hw. discriminate.
Qed.

(** ** Weights in binary64 *)

Section FloatWeights.

Local Open Scope float_scope.

(** Zero over a positive total is zero, whatever the total: nothing is
    rounded. *)
Lemma zero_over_positive (t : float) : (0 <? t) = true -> 0 / t = 0.
Proof.
  intros Ht. rewrite FloatAxioms.ltb_spec in Ht.
  apply Prim2SF_inj. rewrite FloatAxioms.div_spec.
  change (Prim2SF 0) with (S754_zero false) in *.
  destruct (Prim2SF t) as [s|s| |s m e]; simpl in *;
    try discriminate; destruct s; try discriminate; reflexivity.
Qed.

Lemma weight_of_unpriced (t : float) (p : Position float) :
  (0 <? t) = true -> latest_price p = None -> weight_of t p = 0.
Proof.
  intros Ht Hp. unfold weight_of, market_value. rewrite Hp.
  cbn [ndiv nmul n0 n100 binary64]. now rewrite (zero_over_positive t Ht).
Qed.

End FloatWeights.

(** C9.  Whenever the report carries weights, a position without a price
    has the weight 0.0 exactly: a number, not a missing entry. *)
Theorem unpriced_weight_is_zero (pf : Portfolio float) (df : DataFrame float)
    (ws : Series float) (i : nat) (p : Position float) :
  to_dataframe pf = Ok df ->
  weight_pct df = Some ws ->
  nth_error (positions pf) i = Some p ->
  latest_price p = None ->
  nth_error ws i = Some (CNum 0%float).
Proof.
  intros Hdf Hws Hi Hp.
  assert (Hne : positions pf <> []).
  { intros Hnil. rewrite Hnil in Hi. destruct i; discriminate. }
  rewrite (to_dataframe_value pf Hne) in Hdf.
  destruct (weights_computed pf) eqn:Hw.
  - injection Hdf as <-.
    change (Some (map (fun q => CNum (weight_of (total_value_used pf) q))
                      (positions pf)) = Some ws) in Hws.
    injection Hws as <-.
    rewrite nth_error_map, Hi. cbn [option_map].
    unfold weights_computed in Hw. apply andb_prop in Hw. destruct Hw as [_ Ht].
    now rewrite (weight_of_unpriced _ p Ht Hp).
  - injection Hdf as <-. discriminate.
Qed.

Lemma unpriced_weight_is_zero_witness :
  exists df ws,
    to_dataframe one_unpriced = Ok df /\ weight_pct df = Some ws
    /\ nth_error ws 1 = Some (CNum 0%float).
Proof.
  eexists. eexists.
  split; [vm_compute; reflexivity|].
  split; [vm_compute; reflexivity|].
  eapply (unpriced_weight_is_zero one_unpriced _ _ 1 _).
  - vm_compute; reflexivity.
  - vm_compute; reflexivity.
  - reflexivity.
  - reflexivity.
Defined.

(** C3, as stated, fails.  In the hedged book a position has a market value
    and the sum of the market values is strictly positive, by the rounding
    of [100 * 8.05]; both positions get a weight, and the weights sum to
    128, not to 100 within 1e-6. *)
Lemma hedged_book_weights_miss_100 :
  (exists p, In p (positions hedged_book) /\ market_value p <> None)
  /\ (0 <? total_value_used hedged_book)%float = true
  /\ exists df ws,
       to_dataframe hedged_book = Ok df
       /\ weight_pct df = Some ws
       /\ List.length ws = List.length (positions hedged_book)
       /\ series_sum ws = 128%float
       /\ (abs (series_sum ws - 100) <? 1e-6)%float = false.
Proof.
  split.
  { eexists. split; [left; reflexivity|discriminate]. }
  split; [vm_compute; reflexivity|].
  eexists. eexists.
  split; [vm_compute; reflexivity|].
  split; [vm_compute; reflexivity|].
  split; [reflexivity|].
  split; vm_compute; reflexivity.
Qed.

(** The two priced positions: cost bases, market values, totals, and the
    weights 55 and 45 up to rounding. *)
Example two_priced_values :
  map cost_basis (positions two_priced) = [1000; 1000]%float
  /\ map market_value (positions two_priced) = [Some 1100; Some 900]%float
  /\ total_cost_basis two_priced = 2000%float
  /\ total_market_value two_priced = Some 2000%float
  /\ total_unrealized_pl two_priced = Some 0%float
  /\ total_unrealized_pl_pct two_priced = Ok (Some 0%float)
  /\ (exists df,
        to_dataframe two_priced = Ok df
        /\ weight_pct df
           = Some [CNum 55.000000000000007%float; CNum 45%float]).
Proof.
  repeat split. eexists. split; vm_compute; reflexivity.
Qed.

(** C3, amended.  For a portfolio with at least one position the report
    carries weights exactly when a position has a market value and the sum
    of the market values, a missing one counted as 0, is strictly positive;
    then every position has the weight [market value / sum * 100], and
    otherwise no position has one.  In exact arithmetic those weights sum to
    100. *)
Theorem report_weights :
  (forall (T : Type) (N : Number T) (pf : Portfolio T),
      positions pf <> [] ->
      exists df,
        to_dataframe pf = Ok df
        /\ weight_pct df =
           if weights_computed pf
           then Some (map (fun p => CNum (weight_of (total_value_used pf) p))
                          (positions pf))
           else None)
  /\ (forall pf : Portfolio Q,
        weights_computed pf = true ->
        exists df ws,
          to_dataframe pf = Ok df
          /\ weight_pct df = Some ws
          /\ List.length ws = List.length (positions pf)
          /\ (series_sum ws == 100)%Q).
Proof.
  split.
  - intros T N pf Hne. eexists. split; [apply (to_dataframe_value pf Hne)|].
    destruct (weights_computed pf); reflexivity.
  - intros pf Hw. eexists. eexists.
    split; [apply (to_dataframe_value pf (weights_computed_nonempty pf Hw))|].
    rewrite Hw. split; [reflexivity|].
    split; [apply length_map|].
    apply (exact_weights_sum pf Hw).
Qed.

Lemma report_weights_witness :
  (exists df, to_dataframe hedged_book = Ok df /\ weight_pct df <> None)
  /\ (exists df ws,
        to_dataframe two_priced_exact = Ok df
        /\ weight_pct df = Some ws
        /\ (series_sum ws == 100)%Q).
Proof.
  split.
  - destruct (proj1 report_weights float binary64 hedged_book) as (df & Hdf & Hw).
    + discriminate.
    + exists df. split; [exact Hdf|]. rewrite Hw.
      replace (weights_computed hedged_book) with true by (vm_compute; reflexivity).
      discriminate.
  - destruct (proj2 report_weights two_priced_exact) as (df & ws & Hdf & Hw & _ & Hs).
    + vm_compute; reflexivity.
    + exists df, ws. auto.
Defined.

(** ** Portfolio volatility *)

Section PortfolioVolatility.

Local Open Scope float_scope.

Lemma empty_false_shape (f : Frame) :
  empty f = false -> (0 < shape0 f)%nat /\ (0 < shape1 f)%nat.
Proof.
  unfold empty. intros He. apply orb_false_elim in He. destruct He as [H0 H1].
  apply Nat.eqb_neq in H0, H1. lia.
Qed.

(** C5, as stated, fails.  The return table of a one-day price history has
    two ticker columns and no row; with three weights the call returns
    [None], because the test for an empty table comes first. *)
Lemma mismatch_on_empty_returns :
  let returns := compute_daily_returns pad single_day in
  shape1 returns = 2%nat
  /\ List.length [0.5; 0.3; 0.2] = 3%nat
  /\ portfolio_volatility returns [0.5; 0.3; 0.2] 252 = Ok None.
Proof. repeat split. Qed.

(** C5, amended.  On a return table that has a row and a column, a weight
    vector whose length is not the number of ticker columns makes
    [portfolio_volatility] raise its dimension error, a [ValueError]; on an
    empty return table it returns [None], whatever the weights. *)
Theorem mismatch_raises (returns : Frame) (weights : list float)
    (trading_days : Z) :
  (empty returns = false ->
   List.length weights <> shape1 returns ->
   portfolio_volatility returns weights trading_days
   = Raise (ValueError weights_mismatch))
  /\ (empty returns = true ->
      portfolio_volatility returns weights trading_days = Ok None).
Proof.
  unfold portfolio_volatility. split.
  - intros He Hlen. rewrite He.
    destruct (Nat.eqb_spec (shape1 returns) (List.length weights)) as [Heq|Hneq];
      [congruence|reflexivity].
  - intros He. now rewrite He.
Qed.

Lemma mismatch_raises_witness :
  portfolio_volatility (compute_daily_returns pad two_tickers)
    [0.5; 0.3; 0.2] 252
  = Raise (ValueError weights_mismatch).
Proof.
  apply (proj1 (mismatch_raises (compute_daily_returns pad two_tickers)
                  [0.5; 0.3; 0.2] 252)).
  - reflexivity.
  - vm_compute. lia.
Defined.

(** C8.  On a return table that has a row and a column, with as many
    weights as columns, a negative daily variance makes
    [portfolio_volatility] return [None]: it neither raises nor takes the
    square root.  An empty return table gives [None] too.  A value that is
    returned is the annualized root of a variance that is not negative. *)
Theorem negative_variance_is_none (returns : Frame) (weights : list float)
    (trading_days : Z) :
  (empty returns = true ->
   portfolio_volatility returns weights trading_days = Ok None)
  /\ (empty returns = false ->
      shape1 returns = List.length weights ->
      (daily_var returns weights <? 0) = true ->
      portfolio_volatility returns weights trading_days = Ok None)
  /\ (forall v,
        portfolio_volatility returns weights trading_days = Ok (Some v) ->
        (daily_var returns weights <? 0) = false
        /\ v = PrimFloat.sqrt (daily_var returns weights)
               * PrimFloat.sqrt (float_of_int trading_days)).
Proof.
  unfold portfolio_volatility. split; [|split].
  - intros He. now rewrite He.
  - intros He Hlen Hneg. rewrite He, Hlen, Nat.eqb_refl. cbn [negb].
    now rewrite Hneg.
  - intros v. destruct (empty returns); [discriminate|].
    destruct (negb _); [discriminate|].
    destruct (daily_var returns weights <? 0); [discriminate|].
    intros Hv. injection Hv as <-. now split.
Qed.

Lemma negative_variance_is_none_witness :
  (daily_var offsetting_returns [0.5; 0.5] <? 0) = true
  /\ portfolio_volatility offsetting_returns [0.5; 0.5] 252 = Ok None.
Proof.
  split; [vm_compute; reflexivity|].
  apply (proj1 (proj2 (negative_variance_is_none offsetting_returns
                         [0.5; 0.5] 252))).
  - reflexivity.
  - reflexivity.
  - vm_compute; reflexivity.
Defined.

End PortfolioVolatility.

(** ** Signs and NaN in binary64 *)

Section Binary64.

Local Open Scope Z_scope.

Lemma shr_1_nonneg (mrs : shr_record) : 0 <= shr_m mrs -> 0 <= shr_m (shr_1 mrs).
Proof.
  destruct mrs as [m r s]. simpl. intros Hm.
  destruct m as [|p|p]; [simpl; lia| |lia].
  destruct p; simpl; lia.
Qed.

Lemma iter_shr_1_nonneg (p : positive) (mrs : shr_record) :
  0 <= shr_m mrs -> 0 <= shr_m (SpecFloat.iter_pos shr_1 p mrs).
Proof.
  revert mrs. induction p as [p IH|p IH|]; intros mrs Hm; simpl.
  - apply IH, IH, shr_1_nonneg, Hm.
  - apply IH, IH, Hm.
  - apply shr_1_nonneg, Hm.
Qed.

Lemma shr_fexp_nonneg (m e : Z) (l : location) :
  0 <= m -> 0 <= shr_m (fst (shr_fexp prec emax m e l)).
Proof.
  intros Hm. unfold shr_fexp, shr.
  assert (H0 : 0 <= shr_m (shr_record_of_loc m l)).
  { destruct l as [|[]]; exact Hm. }
  destruct (fexp prec emax (Zdigits2 m + e) - e); simpl; auto.
  now apply iter_shr_1_nonneg.
Qed.

Lemma round_nearest_even_nonneg (m : Z) (l : location) :
  0 <= m -> 0 <= round_nearest_even m l.
Proof.
  intros Hm. destruct l as [|[]]; simpl; try lia.
  destruct (Z.even m); lia.
Qed.

Lemma binary_round_aux_signed (s : bool) (m e : Z) (l : location) :
  0 <= m -> signed s (binary_round_aux prec emax s m e l).
Proof.
  intros Hm. unfold binary_round_aux.
  pose proof (shr_fexp_nonneg m e l Hm) as H1.
  destruct (shr_fexp prec emax m e l) as [mrs' e'].
  simpl fst in H1.
  pose proof (shr_fexp_nonneg _ e' loc_Exact
                (round_nearest_even_nonneg _ (loc_of_shr_record mrs') H1)) as H2.
  destruct (shr_fexp prec emax _ e' loc_Exact) as [mrs'' e''].
  simpl fst in H2.
  destruct (shr_m mrs'') as [|q|q]; [reflexivity| |lia].
  destruct (e'' <=? emax - prec); reflexivity.
Qed.

Lemma binary_round_signed (s : bool) (m : positive) (e : Z) :
  signed s (binary_round prec emax s m e).
Proof.
  unfold binary_round. destruct (shl_align _ _ _) as [mz ez].
  apply binary_round_aux_signed. lia.
Qed.


Lemma signed_defined (s : bool) (x : spec_float) : signed s x -> sf_defined x.
Proof. destruct x; simpl; auto. Qed.

Lemma signed_nonneg (x : spec_float) : signed false x -> sf_nonneg x.
Proof. destruct x; simpl; auto. Qed.

Lemma sf_nonneg_defined (x : spec_float) : sf_nonneg x -> sf_defined x.
Proof. destruct x; simpl; auto. Qed.

Lemma binary_normalize_defined (m e : Z) :
  sf_defined (binary_normalize prec emax m e false).
Proof.
  destruct m; simpl; [exact I| |];
    apply (signed_defined _ _ (binary_round_signed _ _ _)).
Qed.

Lemma SFadd_defined (x y : spec_float) :
  sf_defined x -> sf_finite y -> sf_defined (SF64add x y).
Proof.
  destruct x as [sx|sx| |sx mx ex], y as [sy|sy| |sy my ey]; simpl;
    try tauto; intros _ _.
  - destruct sx, sy; exact I.
  - apply binary_normalize_defined.
Qed.

Lemma SFsub_defined (x y : spec_float) :
  sf_defined x -> sf_finite y -> sf_defined (SF64sub x y).
Proof.
  destruct x as [sx|sx| |sx mx ex], y as [sy|sy| |sy my ey]; simpl;
    try tauto; intros _ _.
  - destruct sx, sy; exact I.
  - apply binary_normalize_defined.
Qed.

Lemma SFadd_nonneg (x y : spec_float) :
  sf_nonneg x -> sf_nonneg y -> sf_nonneg (SF64add x y).
Proof.
  destruct x as [sx|sx| |sx mx ex], y as [sy|sy| |sy my ey]; simpl;
    try tauto; intros Hx Hy; subst; try reflexivity.
  - destruct sx, sy; exact I.
  - apply signed_nonneg, binary_round_signed.
Qed.

Lemma SFmul_square (x : spec_float) : sf_defined x -> sf_nonneg (SF64mul x x).
Proof.
  destruct x as [s|s| |s m e]; simpl; try tauto; intros _.
  - apply xorb_nilpotent.
  - replace (xorb s s) with false by (symmetry; apply xorb_nilpotent).
    apply signed_nonneg, binary_round_aux_signed. lia.
Qed.

Lemma SFmul_nonneg_posfin (x y : spec_float) :
  sf_nonneg x -> sf_posfin y -> sf_nonneg (SF64mul x y).
Proof.
  destruct y as [sy|sy| |[] my ey]; simpl; try tauto.
  destruct x as [sx|sx| |sx mx ex]; simpl; try tauto; intros Hx _; subst;
    try reflexivity.
  apply signed_nonneg, binary_round_aux_signed. lia.
Qed.

Lemma SFdiv_core_nonneg (m1 : positive) (e1 : Z) (m2 : positive) (e2 : Z) :
  0 <= fst (fst (SFdiv_core_binary prec emax (Zpos m1) e1 (Zpos m2) e2)).
Proof.
  unfold SFdiv_core_binary.
  set (s := e1 - e2 - _).
  set (m' := match s with Z0 => Zpos m1 | Zpos _ => Z.shiftl (Zpos m1) s | Zneg _ => 0 end).
  assert (Hm' : 0 <= m').
  { subst m'. destruct s; try lia. apply Z.shiftl_nonneg. lia. }
  pose proof (Z_div_mod m' (Zpos m2) eq_refl) as Hd.
  destruct (Z.div_eucl m' (Zpos m2)) as [q r]. simpl.
  destruct Hd as [Hd Hr]. nia.
Qed.

Lemma SFdiv_posfin_signed (x y : spec_float) :
  sf_posfin y ->
  match x with
  | S754_nan => True
  | S754_zero s | S754_infinity s | S754_finite s _ _ => signed s (SF64div x y)
  end.
Proof.
  destruct y as [sy|sy| |[] my ey]; simpl; try tauto. intros _.
  destruct x as [sx|sx| |sx mx ex]; simpl; try apply xorb_false_r; [exact I|].
  pose proof (SFdiv_core_nonneg mx ex my ey) as Hq.
  destruct (SFdiv_core_binary prec emax (Zpos mx) ex (Zpos my) ey) as [[mz ez] lz].
  simpl in Hq. rewrite xorb_false_r.
  now apply binary_round_aux_signed.
Qed.

Lemma SFdiv_defined_posfin (x y : spec_float) :
  sf_defined x -> sf_posfin y -> sf_defined (SF64div x y).
Proof.
  intros Hx Hy. pose proof (SFdiv_posfin_signed x y Hy) as H.
  destruct x; try (now apply (signed_defined _ _ H)). destruct Hx.
Qed.

Lemma SFdiv_nonneg_posfin (x y : spec_float) :
  sf_nonneg x -> sf_posfin y -> sf_nonneg (SF64div x y).
Proof.
  intros Hx Hy. pose proof (SFdiv_posfin_signed x y Hy) as H.
  destruct x as [s|s| |s m e]; simpl in Hx; subst;
    try (now apply signed_nonneg); try tauto.
  destruct y as [sy|sy| |[] my ey]; simpl in Hy; tauto.
Qed.

Lemma SFsqrt_nonneg (x : spec_float) : sf_nonneg x -> sf_nonneg (SF64sqrt x).
Proof.
  destruct x as [s|s| |s m e]; simpl; try tauto; intros ->; [reflexivity|].
  unfold SFsqrt_core_binary.
  set (m' := match _ with Z0 => Zpos m | Zpos _ => _ | Zneg _ => 0 end).
  pose proof (Z.sqrtrem_spec m') as Hs.
  destruct (Z.sqrtrem m') as [q r].
  apply signed_nonneg, binary_round_aux_signed.
  assert (Hm' : 0 <= m').
  { subst m'. destruct (e - 2 * _); try lia. apply Z.shiftl_nonneg. lia. }
  specialize (Hs Hm'). cbv iota beta in Hs. lia.
Qed.

(** *** Magnitudes

    The number of binary digits of a mantissa plus its exponent is the
    magnitude of a float.  Away from underflow and overflow a rounding keeps
    it, or adds one. *)

Lemma digits_log2 (p : positive) : Zpos (digits2_pos p) = Z.log2 (Zpos p) + 1.
Proof.
  assert (Hs : forall q, digits2_pos q = Pos.size q).
  { induction q as [q IH|q IH|]; simpl; congruence. }
  destruct p as [p|p|]; simpl; rewrite ?Hs; lia.
Qed.

Lemma digits_succ (p : positive) :
  Zpos (digits2_pos p) <= Zpos (digits2_pos (p + 1))
  <= Zpos (digits2_pos p) + 1.
Proof.
  rewrite !digits_log2. 
  assert (H1 : Z.log2 (Zpos p) <= Z.log2 (Zpos (p + 1))) by (apply Z.log2_le_mono; lia).
  assert (H2 : Z.log2 (Zpos (p + 1)) <= Z.log2 (2 * Zpos p)) by (apply Z.log2_le_mono; lia).
  rewrite Z.log2_double in H2 by lia. lia.
Qed.

Lemma digits_iter_xO (p d : positive) :
  Zpos (digits2_pos (Pos.iter xO p d)) = Zpos (digits2_pos p) + Zpos d.
Proof.
  induction d as [|d IH] using Pos.peano_ind.
  - cbn [Pos.iter digits2_pos]. rewrite Pos2Z.inj_succ. lia.
  - rewrite Pos.iter_succ. cbn [digits2_pos].
    rewrite !Pos2Z.inj_succ. lia.
Qed.

Lemma shr_1_digits (mrs : shr_record) (q : positive) :
  shr_m mrs = Zpos q -> 1 < Zpos (digits2_pos q) ->
  exists q', shr_m (shr_1 mrs) = Zpos q'
             /\ Zpos (digits2_pos q') = Zpos (digits2_pos q) - 1.
Proof.
  destruct mrs as [m r s]. cbn [shr_m]. intros -> Hd.
  destruct q as [q|q|]; cbn [shr_1 shr_m digits2_pos] in *;
    rewrite ?Pos2Z.inj_succ in *; try lia; exists q; split; auto; lia.
Qed.

Lemma iter_shr_1_digits (k : positive) (mrs : shr_record) (q : positive) :
  shr_m mrs = Zpos q -> Zpos k < Zpos (digits2_pos q) ->
  exists q', shr_m (SpecFloat.iter_pos shr_1 k mrs) = Zpos q'
             /\ Zpos (digits2_pos q') = Zpos (digits2_pos q) - Zpos k.
Proof.
  revert mrs q. induction k as [k IH|k IH|]; intros mrs q Hm Hd;
    cbn [SpecFloat.iter_pos];
    [pose proof (Pos2Z.inj_xI k) as Hk|pose proof (Pos2Z.inj_xO k) as Hk|].
  - destruct (shr_1_digits mrs q Hm) as (q1 & H1 & D1); [lia|].
    destruct (IH _ q1 H1) as (q2 & H2 & D2); [lia|].
    destruct (IH _ q2 H2) as (q3 & H3 & D3); [lia|].
    exists q3. split; [exact H3|lia].
  - destruct (IH _ q Hm) as (q2 & H2 & D2); [lia|].
    destruct (IH _ q2 H2) as (q3 & H3 & D3); [lia|].
    exists q3. split; [exact H3|lia].
  - apply shr_1_digits; [exact Hm|lia].
Qed.

(** One pass of [shr_fexp] in the normal range: the mantissa stays positive,
    has at most [prec] digits afterwards, and keeps its magnitude. *)
Lemma shr_fexp_digits (m : positive) (e : Z) (l : location) :
  -1021 <= Zpos (digits2_pos m) + e ->
  exists mrs m' e',
    shr_fexp prec emax (Zpos m) e l = (mrs, e')
    /\ shr_m mrs = Zpos m'
    /\ Zpos (digits2_pos m') + e' = Zpos (digits2_pos m) + e
    /\ Zpos (digits2_pos m') <= 53
    /\ (e' = e \/ e' = Zpos (digits2_pos m) + e - 53).
Proof.
  intros HM. unfold shr_fexp, shr, fexp, SpecFloat.emin, Zdigits2.
  change prec with 53. change emax with 1024.
  rewrite Z.max_l by lia.
  assert (H0 : shr_m (shr_record_of_loc (Zpos m) l) = Zpos m)
    by (destruct l as [|[]]; reflexivity).
  destruct (Zpos (digits2_pos m) + e - 53 - e) as [|k|k] eqn:Hn.
  - eexists _, m, e. repeat split; auto; lia.
  - destruct (iter_shr_1_digits k _ m H0) as (q & Hq & Dq); [lia|].
    eexists _, q, _. repeat split; [exact Hq|lia|lia|right; lia].
  - eexists _, m, e. repeat split; auto; lia.
Qed.

Lemma round_nearest_even_pos (m : positive) (l : location) :
  exists m2, round_nearest_even (Zpos m) l = Zpos m2
             /\ Zpos (digits2_pos m) <= Zpos (digits2_pos m2)
                <= Zpos (digits2_pos m) + 1.
Proof.
  pose proof (digits_succ m) as Hs.
  destruct l as [|[]]; cbn [round_nearest_even].
  - exists m; split; [reflexivity|lia].
  - destruct (Z.even (Zpos m)).
    + exists m; split; [reflexivity|lia].
    + exists (m + 1)%positive; split; [reflexivity|exact Hs].
  - exists m; split; [reflexivity|lia].
  - exists (m + 1)%positive; split; [reflexivity|exact Hs].
Qed.

(** Rounding a positive mantissa in the normal range, away from overflow,
    gives a finite number of the same magnitude or the next. *)
Lemma binary_round_aux_finite (s : bool) (m : positive) (e : Z) (l : location) :
  -1021 <= Zpos (digits2_pos m) + e <= 1023 -> e <= 971 ->
  exists m' e',
    binary_round_aux prec emax s (Zpos m) e l = S754_finite s m' e'
    /\ Zpos (digits2_pos m) + e <= Zpos (digits2_pos m') + e'
       <= Zpos (digits2_pos m) + e + 1
    /\ Zpos (digits2_pos m') <= 53.
Proof.
  intros HM He. unfold binary_round_aux.
  destruct (shr_fexp_digits m e l) as (mrs1 & m1 & e1 & -> & Hm1 & HM1 & Hd1 & He1);
    [lia|].
  rewrite Hm1.
  destruct (round_nearest_even_pos m1 (loc_of_shr_record mrs1))
    as (m2 & -> & Hd2).
  destruct (shr_fexp_digits m2 e1 loc_Exact)
    as (mrs3 & m3 & e3 & -> & Hm3 & HM3 & Hd3 & He3); [lia|].
  rewrite Hm3.
  change (emax - prec) with 971.
  assert (Hle : e3 <= 971) by lia.
  apply Z.leb_le in Hle. rewrite Hle.
  exists m3, e3. split; [reflexivity|]. split; lia.
Qed.

Lemma binary_round_finite (s : bool) (m : positive) (e : Z) :
  -1021 <= Zpos (digits2_pos m) + e <= 1023 -> e <= 971 ->
  exists m' e',
    binary_round prec emax s m e = S754_finite s m' e'
    /\ Zpos (digits2_pos m) + e <= Zpos (digits2_pos m') + e'
       <= Zpos (digits2_pos m) + e + 1
    /\ Zpos (digits2_pos m') <= 53.
Proof.
  intros HM He. unfold binary_round, shl_align, fexp, SpecFloat.emin.
  change prec with 53. change emax with 1024.
  rewrite Z.max_l by lia.
  destruct (Zpos (digits2_pos m) + e - 53 - e) as [|k|k] eqn:Hk.
  - apply binary_round_aux_finite; lia.
  - apply binary_round_aux_finite; lia.
  - pose proof (digits_iter_xO m k) as Hd.
    destruct (binary_round_aux_finite s (Pos.iter xO m k)
                (Zpos (digits2_pos m) + e - 53) loc_Exact)
      as (m' & e' & Hr & HM' & Hd'); [lia|lia|].
    exists m', e'. split; [exact Hr|]. split; lia.
Qed.

(** The binary64 nearest to a positive integer below 2^63. *)
Lemma binary_normalize_integer (z : Z) :
  0 < z < 2 ^ 63 ->
  exists m e,
    binary_normalize prec emax z 0 false = S754_finite false m e
    /\ Z.log2 z + 1 <= Zpos (digits2_pos m) + e <= Z.log2 z + 2
    /\ Zpos (digits2_pos m) <= 53.
Proof.
  intros Hz. destruct z as [|p|p]; try lia. cbn [binary_normalize].
  assert (Hlog : Z.log2 (Zpos p) < 63) by (apply Z.log2_lt_pow2; lia).
  pose proof (Z.log2_nonneg (Zpos p)) as H0.
  pose proof (digits_log2 p) as Hd.
  destruct (binary_round_finite false p 0) as (m & e & Hr & HM & Hm); [lia|lia|].
  exists m, e. split; [exact Hr|]. split; lia.
Qed.

Lemma Prim2SF_one : Prim2SF 1 = S754_finite false 4503599627370496 (-52).
Proof. vm_compute. reflexivity. Qed.

(** One less than a finite number of magnitude 2 or more is a positive
    finite number. *)
Lemma sub_one_posfin (m : positive) (e : Z) :
  Zpos (digits2_pos m) <= 53 ->
  2 <= Zpos (digits2_pos m) + e <= 64 ->
  sf_posfin (SF64sub (S754_finite false m e) (Prim2SF 1)).
Proof.
  intros Hm HM. rewrite Prim2SF_one. unfold SF64sub. cbn [SFsub].
  rewrite Z.min_r by lia. unfold shl_align at 2.
  change (-52 - -52) with 0. cbn [fst cond_Zopp].
  unfold shl_align.
  destruct (-52 - e) as [|k|k] eqn:Hk; try lia. cbn [fst].
  pose proof (digits_iter_xO m k) as HA.
  set (A := Pos.iter xO m k) in *.
  pose proof (digits_log2 A) as HlA.
  assert (HAbig : 2 ^ 53 <= Zpos A).
  { apply Z.log2_le_pow2; lia. }
  change (2 ^ 53) with 9007199254740992 in HAbig.
  assert (Hsub : Zpos A - 4503599627370496 = Zpos (A - 4503599627370496))
    by (rewrite Pos2Z.inj_sub; [reflexivity|lia]).
  rewrite Hsub. cbn [binary_normalize].
  set (q := (A - 4503599627370496)%positive) in *.
  pose proof (digits_log2 q) as Hlq.
  assert (Hq1 : Z.log2 (Zpos q) <= Z.log2 (Zpos A)) by (apply Z.log2_le_mono; lia).
  assert (Hq2 : Z.log2 (Zpos A) <= Z.log2 (2 * Zpos q)) by (apply Z.log2_le_mono; lia).
  rewrite Z.log2_double in Hq2 by lia.
  destruct (binary_round_finite false q (-52)) as (m' & e' & -> & _ & _);
    [lia|lia|exact I].
Qed.

(** The square root of a positive finite number of moderate magnitude is a
    positive finite number. *)
Lemma sqrt_posfin (m : positive) (e : Z) :
  Zpos (digits2_pos m) <= 53 ->
  1 <= Zpos (digits2_pos m) + e <= 65 ->
  sf_posfin (SF64sqrt (S754_finite false m e)).
Proof.
  intros Hm HM. unfold SF64sqrt. cbn [SFsqrt].
  unfold SFsqrt_core_binary, fexp, SpecFloat.emin, Zdigits2.
  change prec with 53. change emax with 1024.
  pose proof (digits_log2 m) as Hd.
  pose proof (Z.log2_nonneg (Zpos m)) as Hl0.
  set (d := Zpos (digits2_pos m)) in *.
  rewrite !Z.div2_div.
  set (e' := Z.min (Z.max ((d + e + 1) / 2 - 53) (3 - 1024 - 53)) (e / 2)).
  assert (He' : e' <= e / 2 /\ e' <= (d + e + 1) / 2 - 53
                /\ (e' = e / 2 \/ e' = (d + e + 1) / 2 - 53)) by (unfold e'; Z.to_euclidean_division_equations; lia).
  set (s := e - 2 * e').
  assert (Hs : 0 <= s) by (unfold s; Z.to_euclidean_division_equations; lia).
  set (m' := match s with Z.pos _ => Z.shiftl (Zpos m) s | 0 => Zpos m | Z.neg _ => 0 end).
  assert (Hm' : m' = Zpos m * 2 ^ s).
  { unfold m'. destruct s as [|p|p] eqn:Hsp; [lia| |lia].
    apply Z.shiftl_mul_pow2. lia. }
  assert (Hlog : Z.log2 m' = s + Z.log2 (Zpos m)).
  { rewrite Hm'. apply Z.log2_mul_pow2; lia. }
  assert (Hpos : 0 < m') by (rewrite Hm'; apply Z.mul_pos_pos; [lia|apply Z.pow_pos_nonneg; lia]).
  destruct (Z.sqrtrem m') as [q r] eqn:Hqr.
  assert (Hq : q = Z.sqrt m') by (rewrite <- Z.sqrtrem_sqrt, Hqr; reflexivity).
  set (k := Z.log2 m' / 2).
  assert (Hk : 0 <= k) by (unfold k; apply Z.div_pos; lia).
  destruct (Z.log2_spec m' Hpos) as [Hlo Hhi].
  assert (H1 : 2 ^ k * 2 ^ k <= m').
  { rewrite <- Z.pow_add_r by lia. etransitivity; [|exact Hlo].
    apply Z.pow_le_mono_r; unfold k; Z.to_euclidean_division_equations; lia. }
  assert (H2 : m' < 2 ^ (k + 1) * 2 ^ (k + 1)).
  { rewrite <- Z.pow_add_r by lia. eapply Z.lt_le_trans; [exact Hhi|].
    apply Z.pow_le_mono_r; unfold k; Z.to_euclidean_division_equations; lia. }
  assert (Hqk : Z.log2 q = k).
  { apply Z.log2_unique; [exact Hk|]. rewrite Hq. split.
    - apply Z.sqrt_le_square; [lia|apply Z.pow_nonneg; lia|exact H1].
    - apply Z.sqrt_lt_square; [lia|apply Z.pow_nonneg; lia|exact H2]. }
  assert (Hqpos : 0 < q).
  { rewrite Hq. apply Z.sqrt_pos. exact Hpos. }
  destruct q as [|qp|qp]; try lia.
  pose proof (digits_log2 qp) as Hdq.
  set (lz := if (r =? 0) then loc_Exact else loc_Inexact (if r <=? Z.pos qp then Lt else Gt)).
  assert (Hmag : 2 * k + 2 * e' <= d + e - 1 <= 2 * k + 2 * e' + 1).
  { unfold k. rewrite Hlog. unfold s. Z.to_euclidean_division_equations. lia. }
  destruct (binary_round_aux_finite false qp e' lz) as (m2 & e2 & Hr & _ & _);
    [lia|Z.to_euclidean_division_equations; lia|].
  change (binary_round_aux 53 1024 false (Z.pos qp) e' lz)
    with (binary_round_aux prec emax false (Z.pos qp) e' lz).
  rewrite Hr. exact I.
Qed.

Lemma binary_round_aux_opp (s : bool) (m e : Z) (l : location) :
  binary_round_aux prec emax (negb s) m e l
  = SFopp (binary_round_aux prec emax s m e l).
Proof.
  unfold binary_round_aux.
  destruct (shr_fexp prec emax m e l) as [mrs' e'].
  destruct (shr_fexp prec emax _ e' loc_Exact) as [mrs'' e''].
  destruct (shr_m mrs''); [reflexivity| |reflexivity].
  destruct (e'' <=? emax - prec); reflexivity.
Qed.

Lemma binary_normalize_opp (z e : Z) :
  binary_normalize prec emax (- z) e false = binary_normalize prec emax z e false
  \/ binary_normalize prec emax (- z) e false
     = SFopp (binary_normalize prec emax z e false).
Proof.
  destruct z as [|p|p]; cbn [Z.opp binary_normalize]; [now left| |];
    right; unfold binary_round; destruct (shl_align _ _ _) as [mz ez].
  - apply (binary_round_aux_opp false).
  - rewrite (binary_round_aux_opp false). 
    destruct (binary_round_aux prec emax false (Z.pos mz) ez loc_Exact) as [[]|[]| |[] ? ?];
      reflexivity.
Qed.

(** [y - x] is [x - y] up to the sign. *)
Lemma SFsub_swap (x y : spec_float) :
  SF64sub y x = SF64sub x y \/ SF64sub y x = SFopp (SF64sub x y).
Proof.
  unfold SF64sub.
  destruct x as [sx|sx| |sx mx ex], y as [sy|sy| |sy my ey]; cbn [SFsub SFopp];
    try (repeat match goal with s : bool |- _ => destruct s end;
         first [left; reflexivity | right; reflexivity]).
  rewrite (Z.min_comm ey ex).
  set (a := cond_Zopp sx (Z.pos (fst (shl_align mx ex (Z.min ex ey))))).
  set (b := cond_Zopp sy (Z.pos (fst (shl_align my ey (Z.min ex ey))))).
  replace (b - a)%Z with (- (a - b))%Z by lia.
  apply binary_normalize_opp.
Qed.

Lemma SFmul_opp_square (x : spec_float) :
  SF64mul (SFopp x) (SFopp x) = SF64mul x x.
Proof. destruct x as [[]|[]| |[] m e]; reflexivity. Qed.

End Binary64.

Section Binary64Values.

Local Open Scope float_scope.

Lemma SFcompare_refl (x : spec_float) :
  sf_defined x -> SFcompare x x = Some Eq.
Proof.
  destruct x as [s|s| |s m e]; simpl; try tauto; intros _.
  - now destruct s.
  - rewrite Z.compare_refl, Pos.compare_cont_refl. now destruct s.
Qed.

Lemma is_nan_Prim2SF (x : float) :
  is_nan x = match Prim2SF x with S754_nan => true | _ => false end.
Proof.
  unfold is_nan. rewrite FloatAxioms.eqb_spec. unfold SFeqb.
  destruct (Prim2SF x) as [s|s| |s m e] eqn:Hx; try reflexivity;
    rewrite SFcompare_refl; try reflexivity; exact I.
Qed.

Lemma defined_not_nan (x : float) :
  sf_defined (Prim2SF x) <-> is_nan x = false.
Proof.
  rewrite is_nan_Prim2SF.
  destruct (Prim2SF x); simpl; split; intros Hx;
    try reflexivity; try exact I; try discriminate; destruct Hx.
Qed.

Lemma is_finite_sf (x : float) :
  is_finite x = true -> sf_finite (Prim2SF x).
Proof.
  unfold is_finite, is_infinity.
  rewrite is_nan_Prim2SF, FloatAxioms.eqb_spec, FloatAxioms.abs_spec.
  change (Prim2SF infinity) with (S754_infinity false).
  destruct (Prim2SF x) as [s|s| |s m e]; simpl; auto; discriminate.
Qed.

Lemma positive_finite_sf (x : float) :
  (0 <? x) = true -> is_finite x = true -> sf_posfin (Prim2SF x).
Proof.
  intros Hpos Hfin. apply is_finite_sf in Hfin.
  rewrite FloatAxioms.ltb_spec in Hpos.
  change (Prim2SF 0) with (S754_zero false) in Hpos.
  destruct (Prim2SF x) as [s|s| |s m e]; simpl in *; try tauto; try discriminate.
  destruct s; [discriminate|exact I].
Qed.

(** A return against a missing price is missing. *)
Lemma pct_nan (x : float) : is_nan (pct x nan) = true.
Proof.
  unfold pct. rewrite is_nan_Prim2SF, FloatAxioms.sub_spec, FloatAxioms.div_spec.
  change (Prim2SF nan) with S754_nan.
  destruct (Prim2SF x); reflexivity.
Qed.

Lemma fold_add_defined (xs : list float) (acc : float) :
  Forall (fun x => sf_finite (Prim2SF x)) xs ->
  sf_defined (Prim2SF acc) ->
  sf_defined (Prim2SF (fold_left PrimFloat.add xs acc)).
Proof.
  intros Hxs. revert acc. induction Hxs as [|x xs Hx _ IH]; intros acc Hacc.
  - exact Hacc.
  - simpl. apply IH. rewrite FloatAxioms.add_spec. now apply SFadd_defined.
Qed.

Lemma fold_add_nonneg (xs : list float) (acc : float) :
  Forall (fun x => sf_nonneg (Prim2SF x)) xs ->
  sf_nonneg (Prim2SF acc) ->
  sf_nonneg (Prim2SF (fold_left PrimFloat.add xs acc)).
Proof.
  intros Hxs. revert acc. induction Hxs as [|x xs Hx _ IH]; intros acc Hacc.
  - exact Hacc.
  - simpl. apply IH. rewrite FloatAxioms.add_spec. now apply SFadd_nonneg.
Qed.

(** The square of a deviation does not depend on the side it is taken
    from. *)
Lemma square_sym (x m : float) : (x - m) * (x - m) = (m - x) * (m - x).
Proof.
  apply Prim2SF_inj. rewrite !FloatAxioms.mul_spec, !FloatAxioms.sub_spec.
  destruct (SFsub_swap (Prim2SF m) (Prim2SF x)) as [->| ->];
    [reflexivity|apply SFmul_opp_square].
Qed.

Lemma ltb_false_nonneg (v : float) :
  (v <? 0) = false -> is_nan v = false -> sf_nonneg (Prim2SF v).
Proof.
  rewrite FloatAxioms.ltb_spec, is_nan_Prim2SF.
  change (Prim2SF 0) with (S754_zero false).
  destruct (Prim2SF v) as [s|s| |s m e]; simpl; try discriminate;
    try (intros; exact I); destruct s; try discriminate; reflexivity.
Qed.

Lemma nonneg_tests (v : float) :
  sf_nonneg (Prim2SF v) -> is_nan v = false /\ (v <? 0) = false.
Proof.
  rewrite FloatAxioms.ltb_spec, is_nan_Prim2SF.
  change (Prim2SF 0) with (S754_zero false).
  destruct (Prim2SF v) as [s|s| |s m e]; simpl; try tauto;
    intros ->; split; reflexivity.
Qed.

(** The machine integers and their floats. *)
Lemma to_Z_of_Z (z : Z) :
  (0 <= z < 2 ^ 63)%Z -> Uint63.to_Z (Uint63.of_Z z) = z.
Proof.
  intros Hz. rewrite Uint63.of_Z_spec. apply Z.mod_small.
  change wB with (2 ^ 63)%Z. exact Hz.
Qed.

Lemma of_uint63_of_Z (z : Z) :
  (0 <= z < 2 ^ 63)%Z ->
  Prim2SF (of_uint63 (Uint63.of_Z z)) = binary_normalize prec emax z 0 false.
Proof. intros Hz. now rewrite FloatAxioms.of_uint63_spec, to_Z_of_Z. Qed.

(** On a machine integer that is not negative [float_of_int] is the
    conversion of the machine. *)
Lemma float_of_int_machine (z : Z) :
  (0 <= z < 2 ^ 63)%Z -> float_of_int z = of_uint63 (Uint63.of_Z z).
Proof.
  intros Hz. unfold float_of_int.
  rewrite <- (of_uint63_of_Z z Hz). apply SF2Prim_Prim2SF.
Qed.

Lemma count_posfin (n : nat) :
  (1 <= n)%nat -> (Z.of_nat n < 2 ^ 63)%Z ->
  sf_posfin (Prim2SF (float_of_count n)).
Proof.
  intros Hn Hmax. unfold float_of_count. rewrite of_uint63_of_Z by lia.
  destruct (binary_normalize_integer (Z.of_nat n)) as (m & e & -> & _); [lia|].
  exact I.
Qed.

Lemma count_less_one_posfin (n : nat) :
  (2 <= n)%nat -> (Z.of_nat n < 2 ^ 63)%Z ->
  sf_posfin (Prim2SF (float_of_count n - 1)).
Proof.
  intros Hn Hmax. rewrite FloatAxioms.sub_spec. unfold float_of_count.
  rewrite of_uint63_of_Z by lia.
  destruct (binary_normalize_integer (Z.of_nat n)) as (m & e & -> & HM & Hm);
    [lia|].
  assert (H1 : (1 <= Z.log2 (Z.of_nat n))%Z)
    by (apply Z.log2_le_pow2; [lia|change (2 ^ 1)%Z with 2%Z; lia]).
  assert (H2 : (Z.log2 (Z.of_nat n) < 63)%Z) by (apply Z.log2_lt_pow2; lia).
  apply sub_one_posfin; lia.
Qed.

Lemma sqrt_days_posfin (z : Z) :
  (0 < z < 2 ^ 63)%Z ->
  sf_posfin (Prim2SF (PrimFloat.sqrt (of_uint63 (Uint63.of_Z z)))).
Proof.
  intros Hz. rewrite FloatAxioms.sqrt_spec, of_uint63_of_Z by lia.
  destruct (binary_normalize_integer z Hz) as (m & e & -> & HM & Hm).
  pose proof (Z.log2_nonneg z) as H0.
  assert (H2 : (Z.log2 z < 63)%Z) by (apply Z.log2_lt_pow2; lia).
  apply sqrt_posfin; lia.
Qed.

(** Adding from left to right keeps the sign, and finite values never add
    up to NaN. *)
Lemma fsum_adds_up : adds_up fsum.
Proof.
  intros ys Hys. apply nonneg_tests. unfold fsum.
  apply fold_add_nonneg; [|exact I].
  apply Forall_forall. intros y Hy.
  apply (proj1 (forallb_forall _ _) Hys) in Hy.
  apply andb_true_iff in Hy. destruct Hy as [Hnan Hneg].
  apply negb_true_iff in Hnan, Hneg. now apply ltb_false_nonneg.
Qed.

Lemma fsum_finite (xs : list float) :
  forallb is_finite xs = true -> is_nan (fsum xs) = false.
Proof.
  intros Hxs. apply defined_not_nan. unfold fsum.
  apply fold_add_defined; [|exact I].
  apply Forall_forall. intros x Hx. apply is_finite_sf.
  now apply (proj1 (forallb_forall _ _) Hxs).
Qed.

(** The variance of two or more finite observations whose sum is not NaN is
    a sum of squares over a positive count: not NaN and not negative. *)
Lemma nanvar_by_nonneg (total : list float -> float) (col : list float) :
  adds_up total ->
  (2 <= List.length (observations col))%nat ->
  (Z.of_nat (List.length (observations col)) < 2 ^ 63)%Z ->
  forallb is_finite (observations col) = true ->
  is_nan (total (observations col)) = false ->
  sf_nonneg (Prim2SF (nanvar_by total col)).
Proof.
  intros Hadd Hlen Hmax Hfin Hsum. unfold nanvar_by.
  destruct (Nat.leb_spec (List.length (observations col)) 1) as [Hle|_]; [lia|].
  rewrite FloatAxioms.div_spec.
  apply SFdiv_nonneg_posfin; [|apply count_less_one_posfin; lia].
  set (avg := total (observations col)
              / float_of_count (List.length (observations col))).
  assert (Havg : sf_defined (Prim2SF avg)).
  { unfold avg. rewrite FloatAxioms.div_spec.
    apply SFdiv_defined_posfin; [now apply defined_not_nan|].
    apply count_posfin; lia. }
  destruct (Hadd (map (fun x => (avg - x) * (avg - x)) (observations col)))
    as [Hnan Hneg]; [|now apply ltb_false_nonneg].
  apply forallb_forall. intros y Hy.
  apply in_map_iff in Hy. destruct Hy as (x & <- & Hx).
  assert (Hsq : sf_nonneg (Prim2SF ((avg - x) * (avg - x)))).
  { rewrite FloatAxioms.mul_spec. apply SFmul_square.
    rewrite FloatAxioms.sub_spec. apply SFsub_defined; [exact Havg|].
    apply is_finite_sf. now apply (proj1 (forallb_forall _ _) Hfin). }
  destruct (nonneg_tests _ Hsq) as [-> ->]. reflexivity.
Qed.

Lemma annualized_by_defined (total : list float -> float) (col : list float)
    (t : float) :
  adds_up total ->
  (2 <= List.length (observations col))%nat ->
  (Z.of_nat (List.length (observations col)) < 2 ^ 63)%Z ->
  forallb is_finite (observations col) = true ->
  is_nan (total (observations col)) = false ->
  sf_posfin (Prim2SF t) ->
  is_nan (nanstd_by total col * t) = false
  /\ (nanstd_by total col * t <? 0) = false.
Proof.
  intros Hadd Hlen Hmax Hfin Hsum Ht. apply nonneg_tests.
  rewrite FloatAxioms.mul_spec. apply SFmul_nonneg_posfin; [|exact Ht].
  unfold nanstd_by. rewrite FloatAxioms.sqrt_spec. apply SFsqrt_nonneg.
  now apply nanvar_by_nonneg.
Qed.

End Binary64Values.

(** ** Daily returns *)

Section DailyReturns.

Local Open Scope float_scope.

Lemma pct_from_row_over_row (rest : list (Z * list float)) (p : Z * list float) :
  pct_from (snd p) rest = row_over_row (p :: rest).
Proof.
  revert p. induction rest as [|[d r] rest IH]; intros p; [reflexivity|].
  cbn [pct_from row_over_row]. f_equal. apply (IH (d, r)).
Qed.

(** The first row of [pct_change] is missing throughout. *)
Lemma first_row_all_nan (r : list float) :
  forallb is_nan (map2 pct r (nan_row r)) = true.
Proof.
  induction r as [|x r IH]; [reflexivity|].
  cbn [nan_row map map2 forallb]. now rewrite pct_nan.
Qed.

Lemma dropna_some_defined (rs : list (Z * list float)) :
  dropna_all rs = filter some_defined rs.
Proof.
  unfold dropna_all, some_defined. apply filter_ext. intros [d r]. cbn [snd].
  induction r as [|x r IH]; [reflexivity|].
  cbn [forallb existsb]. rewrite <- IH. now destruct (is_nan x).
Qed.

Lemma pct_change_value (fill : fill_method) (rs : list (Z * list float)) :
  dropna_all (pct_change fill rs)
  = filter some_defined (row_over_row (filled fill rs)).
Proof.
  unfold pct_change. fold (filled fill rs).
  destruct (filled fill rs) as [|[d r] rest]; [reflexivity|].
  cbn [pct_from]. unfold dropna_all at 1. cbn [filter snd].
  rewrite first_row_all_nan. cbn [negb].
  fold (dropna_all (pct_from r rest)).
  rewrite dropna_some_defined. f_equal.
  apply (pct_from_row_over_row rest (d, r)).
Qed.

(** Dates: sorted by [sort_index], kept by the fill, shifted by one by the
    differencing, thinned by the filter. *)
Lemma insert_row_dates (r : Z * list float) (rs : list (Z * list float)) :
  StronglySorted Z.le (map fst rs) ->
  StronglySorted Z.le (map fst (insert_row r rs))
  /\ forall d, In d (map fst (insert_row r rs)) -> d = fst r \/ In d (map fst rs).
Proof.
  induction rs as [|r' rs IH]; intros Hs.
  - split; [repeat constructor|]. intros d [<-|[]]. now left.
  - cbn [insert_row]. destruct (Z.leb_spec (fst r) (fst r')) as [Hle|Hgt].
    + split.
      * cbn [map]. constructor; [exact Hs|].
        apply StronglySorted_inv in Hs. destruct Hs as [_ Hall].
        constructor; [exact Hle|].
        rewrite Forall_forall in *. intros d Hd. specialize (Hall d Hd). lia.
      * intros d [<-|Hd]; [now left|now right].
    + cbn [map] in *. apply StronglySorted_inv in Hs. destruct Hs as [Hs Hall].
      destruct (IH Hs) as [IHs IHin]. split.
      * constructor; [exact IHs|].
        rewrite Forall_forall in *. intros d Hd.
        destruct (IHin d Hd) as [->|Hd']; [lia|now apply Hall].
      * intros d [<-|Hd]; [right; now left|].
        destruct (IHin d Hd) as [->|Hd']; [now left|right; now right].
Qed.

Lemma sort_index_sorted (rs : list (Z * list float)) :
  StronglySorted Z.le (map fst (sort_index rs)).
Proof.
  induction rs as [|r rs IH]; [constructor|].
  cbn [sort_index]. now apply insert_row_dates.
Qed.

Lemma insert_row_perm (r : Z * list float) (rs : list (Z * list float)) :
  Permutation (insert_row r rs) (r :: rs).
Proof.
  induction rs as [|r' rs IH]; [reflexivity|].
  cbn [insert_row]. destruct (fst r <=? fst r')%Z; [reflexivity|].
  rewrite IH. apply perm_swap.
Qed.

(** [sort_index] keeps every row, once. *)
Lemma sort_index_perm (rs : list (Z * list float)) :
  Permutation (sort_index rs) rs.
Proof.
  induction rs as [|r rs IH]; [reflexivity|].
  cbn [sort_index]. rewrite insert_row_perm. now constructor.
Qed.

Lemma insert_row_length (r : Z * list float) (rs : list (Z * list float)) :
  List.length (insert_row r rs) = S (List.length rs).
Proof.
  induction rs as [|r' rs IH]; [reflexivity|].
  cbn [insert_row]. destruct (fst r <=? fst r')%Z; cbn [List.length]; congruence.
Qed.

Lemma sort_index_length (rs : list (Z * list float)) :
  List.length (sort_index rs) = List.length rs.
Proof.
  induction rs as [|r rs IH]; [reflexivity|].
  cbn [sort_index]. rewrite insert_row_length. cbn [List.length]. congruence.
Qed.

Lemma ffill_from_dates (rs : list (Z * list float)) (last : list float) :
  map fst (ffill_from last rs) = map fst rs.
Proof.
  revert last. induction rs as [|[d r] rs IH]; intros last; [reflexivity|].
  cbn [ffill_from map fst]. now rewrite IH.
Qed.

Lemma filled_dates (fill : fill_method) (rs : list (Z * list float)) :
  map fst (filled fill rs) = map fst rs.
Proof.
  destruct fill; [|reflexivity]. unfold filled, ffill.
  destruct rs as [|[d r] rs]; [reflexivity|]. apply ffill_from_dates.
Qed.

Lemma row_over_row_dates (rs : list (Z * list float)) :
  map fst (row_over_row rs) = tl (map fst rs).
Proof.
  induction rs as [|p rest IH]; [reflexivity|].
  destruct rest as [|[d cur] rest']; [reflexivity|].
  cbn [row_over_row map fst tl] in *. now rewrite IH.
Qed.

Lemma filter_dates_sorted (f : Z * list float -> bool)
    (rs : list (Z * list float)) :
  StronglySorted Z.le (map fst rs) ->
  StronglySorted Z.le (map fst (filter f rs)).
Proof.
  induction rs as [|r rs IH]; intros Hs; [constructor|].
  cbn [map] in Hs. apply StronglySorted_inv in Hs. destruct Hs as [Hs Hall].
  cbn [filter]. destruct (f r); [|now apply IH].
  cbn [map]. constructor; [now apply IH|].
  rewrite Forall_forall in *. intros d Hd. apply Hall.
  apply in_map_iff in Hd. destruct Hd as (x & <- & Hx).
  apply filter_In in Hx. apply in_map. tauto.
Qed.

Lemma tl_sorted (ds : list Z) :
  StronglySorted Z.le ds -> StronglySorted Z.le (tl ds).
Proof.
  destruct ds; [auto|]. intros Hs. now apply StronglySorted_inv in Hs.
Qed.

Lemma sort_index_of_sorted (rs : list (Z * list float)) :
  StronglySorted Z.le (map fst rs) -> sort_index rs = rs.
Proof.
  induction rs as [|r rs IH]; intros Hs; [reflexivity|].
  cbn [map] in Hs. apply StronglySorted_inv in Hs. destruct Hs as [Hs Hall].
  cbn [sort_index]. rewrite (IH Hs).
  destruct rs as [|r' rs']; [reflexivity|].
  cbn [insert_row]. apply Forall_inv in Hall. cbn [map] in Hall.
  destruct (Z.leb_spec (fst r) (fst r')) as [_|Hgt]; [reflexivity|lia].
Qed.

(** Where no price is missing there is nothing to fill. *)
Lemma map2_keep (r last : list float) :
  List.length last = List.length r ->
  forallb (fun x => negb (is_nan x)) r = true ->
  map2 (fun x l => if is_nan x then l else x) r last = r.
Proof.
  revert last. induction r as [|x r IH]; intros [|l last] Hlen Hr;
    try reflexivity; try discriminate Hlen.
  cbn [forallb] in Hr. apply andb_true_iff in Hr. destruct Hr as [Hx Hr].
  cbn [map2]. apply negb_true_iff in Hx. rewrite Hx. f_equal.
  apply IH; [now injection Hlen|exact Hr].
Qed.

Lemma ffill_from_complete (n : nat) (rs : list (Z * list float))
    (last : list float) :
  List.length last = n ->
  Forall (fun r => List.length (snd r) = n
                   /\ forallb (fun x => negb (is_nan x)) (snd r) = true) rs ->
  ffill_from last rs = rs.
Proof.
  intros Hlast Hrs. revert last Hlast.
  induction Hrs as [|[d r] rs [Hlen Hr] _ IH]; intros last Hlast; [reflexivity|].
  cbn [snd] in Hlen, Hr. cbn [ffill_from].
  rewrite (map2_keep r last) by (congruence || exact Hr).
  f_equal. now apply IH.
Qed.

Lemma ffill_complete (n : nat) (rs : list (Z * list float)) :
  Forall (fun r => List.length (snd r) = n
                   /\ forallb (fun x => negb (is_nan x)) (snd r) = true) rs ->
  ffill rs = rs.
Proof.
  intros Hrs. unfold ffill. destruct rs as [|[d r] rs]; [reflexivity|].
  apply (ffill_from_complete n); [|exact Hrs].
  apply Forall_inv in Hrs. cbn [snd] in Hrs. unfold nan_row.
  rewrite length_map. tauto.
Qed.

Lemma complete_rows (prices : Frame) :
  complete prices = true ->
  Forall (fun r => List.length (snd r) = shape1 prices
                   /\ forallb (fun x => negb (is_nan x)) (snd r) = true)
         (body prices).
Proof.
  unfold complete. intros Hc. apply Forall_forall. intros r Hr.
  apply (proj1 (forallb_forall _ _) Hc) in Hr.
  apply andb_true_iff in Hr. destruct Hr as [Hlen Hr].
  apply Nat.eqb_eq in Hlen. tauto.
Qed.

Lemma ffill_length (rs : list (Z * list float)) :
  List.length (ffill rs) = List.length rs.
Proof.
  rewrite <- (length_map fst (ffill rs)), <- (length_map fst rs).
  f_equal. apply (filled_dates pad).
Qed.



(** With the forward fill of pandas before 3.0 a missing price does not
    leave the return undefined: on [missed_day] the specification has no
    return for BBB on day 1 and on day 2, where the program has the returns
    0 and 51/50 - 1. *)
Lemma missed_day_is_filled :
  body (daily_returns missed_day)
  = [ (1%Z, [101 / 100 - 1; nan]); (2%Z, [102 / 101 - 1; nan]);
      (3%Z, [103 / 102 - 1; 52 / 51 - 1]) ]
  /\ body (compute_daily_returns pad missed_day)
     = [ (1%Z, [101 / 100 - 1; 0]); (2%Z, [102 / 101 - 1; 51 / 50 - 1]);
         (3%Z, [103 / 102 - 1; 52 / 51 - 1]) ]
  /\ compute_daily_returns pad missed_day <> daily_returns missed_day.
Proof.
  split; [vm_compute; reflexivity|].
  split; [vm_compute; reflexivity|].
  intros Heq. apply (f_equal body) in Heq. vm_compute in Heq.
  discriminate Heq.
Qed.

End DailyReturns.

(** ** Annualized volatility *)

Section SampleVarianceExact.

Local Open Scope Q_scope.

Lemma count_exact_succ (n : nat) : count_exact (S n) == count_exact n + 1.
Proof.
  unfold count_exact. rewrite Nat2Z.inj_succ, <- Z.add_1_r, inject_Z_plus.
  reflexivity.
Qed.

Lemma sum_exact_deviations (m : Q) (xs : list Q) :
  sum_exact (map (fun x => (x - m) * (x - m)) xs)
  == sum_exact (map (fun x => x * x) xs) - 2 * m * sum_exact xs
     + count_exact (List.length xs) * m * m.
Proof.
  induction xs as [|x xs IH].
  - unfold count_exact. cbn. ring.
  - cbn [map sum_exact fold_right List.length].
    fold (sum_exact (map (fun x => (x - m) * (x - m)) xs)).
    fold (sum_exact (map (fun x => x * x) xs)). fold (sum_exact xs).
    rewrite IH, count_exact_succ. ring.
Qed.

Lemma count_exact_positive (n : nat) : (1 <= n)%nat -> 0 < count_exact n.
Proof.
  intros Hn. unfold count_exact. change 0 with (inject_Z 0).
  rewrite <- Zlt_Qlt. lia.
Qed.

(** In exact arithmetic the sample variance is the sum of the squares less
    the square of the sum over [N], over [N - 1]. *)
Lemma sample_variance_exact (xs : list Q) :
  (2 <= List.length xs)%nat ->
  sample_variance sum_exact count_exact xs * (count_exact (List.length xs) - 1)
  == sum_exact (map (fun x => x * x) xs)
     - sum_exact xs * sum_exact xs / count_exact (List.length xs).
Proof.
  intros Hlen. unfold sample_variance, mean.
  cbn [nsub nmul ndiv exact].
  rewrite (sum_exact_deviations
             (sum_exact xs / count_exact (List.length xs)) xs).
  assert (Hn : 0 < count_exact (List.length xs))
    by (apply count_exact_positive; lia).
  assert (Hn1 : 0 < count_exact (List.length xs) - 1).
  { destruct (List.length xs) as [|n] eqn:Hl; [lia|].
    rewrite count_exact_succ.
    setoid_replace (count_exact n + 1 - 1) with (count_exact n) by ring.
    apply count_exact_positive. lia. }
  change (count_exact 1) with 1.
  field. split; intros H0;
    first [ rewrite H0 in Hn; now apply Qlt_irrefl in Hn
          | rewrite H0 in Hn1; now apply Qlt_irrefl in Hn1 ].
Qed.

End SampleVarianceExact.

Section AnnualizedVolatility.

Local Open Scope float_scope.

Lemma nan_mul_eq (y : float) : nan * y = nan.
Proof.
  apply Prim2SF_inj. rewrite FloatAxioms.mul_spec.
  change (Prim2SF nan) with S754_nan. reflexivity.
Qed.

(** The observations of a column are the returns of its ticker. *)
Lemma ticker_returns_column (f : Frame) (j : nat) :
  observations (column f j) = ticker_returns j (body f).
Proof.
  unfold observations, column.
  induction (body f) as [|[d r] rows IH]; [reflexivity|].
  cbn [map filter ticker_returns snd]. rewrite IH.
  destruct (nth_error r j) as [x|] eqn:Hx.
  - rewrite (nth_error_nth r j nan Hx). now destruct (is_nan x).
  - apply nth_error_None in Hx. rewrite (nth_overflow r nan Hx). reflexivity.
Qed.

(** [std()] times the root of [trading_days] is the sample standard
    deviation of the observations, annualized, and NaN where that is
    undefined. *)
Lemma nanstd_sample_std (total : list float -> float) (col : list float)
    (trading_days : Z) :
  (0 <= trading_days < 2 ^ 63)%Z ->
  nanstd_by total col * PrimFloat.sqrt (float_of_int trading_days)
  = annualized trading_days (sample_std total (observations col)).
Proof.
  intros Hdays. rewrite (float_of_int_machine trading_days Hdays).
  unfold nanstd_by, nanvar_by, sample_std, annualized.
  destruct (Nat.leb_spec (List.length (observations col)) 1) as [Hle|Hgt].
  - destruct (Nat.ltb_spec (List.length (observations col)) 2) as [_|Hge]; [|lia].
    change (PrimFloat.sqrt nan) with nan. apply nan_mul_eq.
  - destruct (Nat.ltb_spec (List.length (observations col)) 2) as [Hlt|_]; [lia|].
    unfold sample_variance, mean. cbn [nsub nmul ndiv binary64].
    change (float_of_count 1) with 1.
    do 4 f_equal. apply map_ext. intros x. symmetry. apply square_sym.
Qed.

Lemma labels_of_columns (ls : list string) (k : nat) (g : nat -> list float) :
  map fst (map (fun lj => (fst lj, g (snd lj)))
             (combine ls (seq k (List.length ls)))) = ls.
Proof.
  revert k. induction ls as [|l ls IH]; intros k; [reflexivity|].
  cbn [List.length seq combine map fst]. now rewrite IH.
Qed.

Lemma columns_labels (f : Frame) : map fst (columns f) = labels f.
Proof. unfold columns, shape1. apply labels_of_columns. Qed.



End AnnualizedVolatility.

(** * Further properties *)

(** ** The report and the totals, whatever the arithmetic *)

Section ReportFacts.

Context {T : Type} `{Number T}.
Local Open Scope num_scope.
Local Open Scope result_scope.

Lemma frame_of_table (ps : list (Position T)) :
  frame_of ps = table_of report_fields ps.
Proof. reflexivity. Qed.

Lemma table_of_lengths {P : Type} (fields : list (string * (P -> cell T)))
    (ps : list P) (k : string) (col : Series T) :
  In (k, col) (table_of fields ps) -> List.length col = List.length ps.
Proof.
  unfold table_of. intros Hin. apply in_map_iff in Hin.
  destruct Hin as (kf & Heq & _). injection Heq as _ <-. apply length_map.
Qed.

(** X1.  The report of a portfolio that has a position has the nine columns
    [ticker] to [sector] in this order, followed by [weight_pct] exactly
    when weights are computed; every column has one entry per position, and
    the [ticker] column lists the tickers in portfolio order, repeated
    tickers included. *)
Theorem report_shape (pf : Portfolio T) (df : DataFrame T) :
  to_dataframe pf = Ok df ->
  positions pf <> []
  /\ map fst df
     = List.app
         ["ticker"; "quantity"; "avg_cost"; "cost_basis"; "latest_price";
          "market_value"; "unrealized_pl"; "unrealized_pl_pct"; "sector"]%string
         (if weights_computed pf then ["weight_pct"%string] else [])
  /\ (forall k col, In (k, col) df ->
        List.length col = List.length (positions pf))
  /\ lookup "ticker"%string df
     = Some (map (fun p => CStr (ticker p)) (positions pf)).
Proof.
  intros Hdf.
  assert (Hne : positions pf <> []).
  { intros Hnil. unfold to_dataframe in Hdf. rewrite Hnil in Hdf. discriminate. }
  split; [exact Hne|].
  rewrite (to_dataframe_value pf Hne) in Hdf. injection Hdf as <-.
  destruct (weights_computed pf);
    (split; [reflexivity|]; split; [|reflexivity]);
    intros k col Hin; cbn [frame_of app In] in Hin;
    repeat (destruct Hin as [Heq|Hin];
            [injection Heq as _ <-; apply length_map|]);
    destruct Hin.
Qed.

Lemma unpriced_market_values (ps : list (Position T)) :
  (forall p, In p ps -> latest_price p = None) ->
  series_any (map notna (map (fun p => opt_num (market_value p)) ps)) = false.
Proof.
  induction ps as [|p ps IH]; intros Hall; [reflexivity|].
  cbn [map series_any existsb]. unfold market_value at 1.
  rewrite (Hall p (or_introl eq_refl)). cbn [opt_num notna orb].
  apply IH. intros q Hq. apply Hall. now right.
Qed.

(** X2.  When no position has a price, and there is a position, the report
    is returned without [weight_pct], and [total_market_value],
    [total_unrealized_pl] and [total_unrealized_pl_pct] are all [None];
    [total_cost_basis] is still the sum of the cost bases. *)
Theorem all_unpriced (pf : Portfolio T) :
  positions pf <> [] ->
  (forall p, In p (positions pf) -> latest_price p = None) ->
  to_dataframe pf = Ok (frame_of (positions pf))
  /\ weight_pct (frame_of (positions pf)) = None
  /\ total_market_value pf = None
  /\ total_unrealized_pl pf = None
  /\ total_unrealized_pl_pct pf = Ok None.
Proof.
  intros Hne Hall.
  assert (Hw : weights_computed pf = false).
  { unfold weights_computed, market_values.
    now rewrite (unpriced_market_values _ Hall). }
  assert (Hmv : total_market_value pf = None).
  { apply (proj1 (proj2 (proj2 (totals_of_positions pf)))).
    intros p Hp. unfold market_value. now rewrite (Hall p Hp). }
  split.
  { rewrite (to_dataframe_value pf Hne), Hw. reflexivity. }
  split; [reflexivity|]. split; [exact Hmv|].
  assert (Hpl : total_unrealized_pl pf = None).
  { unfold total_unrealized_pl. now rewrite Hmv. }
  split; [exact Hpl|].
  unfold total_unrealized_pl_pct. now rewrite Hpl.
Qed.

(** X3.  [total_unrealized_pl_pct] never raises: its guard is the test on
    which the division would.  It is [None] exactly when the total cost
    basis compares equal to 0 or no position has a market value, and
    otherwise [(total_market_value - total_cost_basis) / total_cost_basis
    * 100]. *)
Theorem total_pct_guarded (pf : Portfolio T) :
  (exists o, total_unrealized_pl_pct pf = Ok o)
  /\ (total_unrealized_pl_pct pf = Ok None <->
      (total_cost_basis pf =? n0) = true \/ total_market_value pf = None)
  /\ (forall mv,
        total_market_value pf = Some mv ->
        (total_cost_basis pf =? n0) = false ->
        total_unrealized_pl_pct pf
        = Ok (Some ((mv - total_cost_basis pf) / total_cost_basis pf * n100))).
Proof.
  rewrite total_unrealized_pl_pct_value. unfold total_unrealized_pl.
  split; [eexists; reflexivity|].
  destruct (total_market_value pf) as [mv|].
  - destruct (total_cost_basis pf =? n0); split.
    + split; [now left|reflexivity].
    + intros mv' _ Hf. discriminate.
    + split; [discriminate|]. intros [Hx|Hx]; discriminate.
    + intros mv' Hmv _. now injection Hmv as ->.
  - split; [split; [now right|reflexivity]|]. intros mv' Hmv. discriminate.
Qed.

End ReportFacts.

Lemma all_unpriced_witness :
  let pf := {| positions :=
                 [ {| ticker := "NEW"; quantity := 3%float;
                      avg_cost := 20%float; latest_price := None;
                      sector := None |} ] |} in
  to_dataframe pf = Ok (frame_of (positions pf))
  /\ total_market_value pf = None.
Proof.
  intros pf. destruct (all_unpriced pf) as (Hdf & _ & Hmv & _).
  - discriminate.
  - intros p [<-|[]]. reflexivity.
  - now split.
Defined.

Lemma report_shape_witness :
  exists df,
    to_dataframe one_unpriced = Ok df
    /\ lookup "ticker"%string df = Some [CStr "AAA"; CStr "NEW"]%string.
Proof.
  destruct (to_dataframe one_unpriced) as [df|e] eqn:Hdf;
    [|vm_compute in Hdf; discriminate].
  exists df. split; [reflexivity|].
  apply (report_shape one_unpriced df Hdf).
Defined.

Lemma total_pct_guarded_witness :
  total_unrealized_pl_pct two_priced = Ok (Some 0%float).
Proof.
  rewrite (proj2 (proj2 (total_pct_guarded two_priced)) 2000%float);
    reflexivity.
Defined.

(** ** Rows of a frame *)

Section Rows.

Context {T : Type}.

Lemma lookup_none_iff {V : Type} (key : string) (kvs : list (string * V)) :
  lookup key kvs = None <-> existsb (String.eqb key) (map fst kvs) = false.
Proof.
  unfold lookup. induction kvs as [|[k v] kvs IH]; [now split|].
  cbn [find map fst existsb]. rewrite (String.eqb_sym key k).
  destruct (String.eqb k key); cbn [orb]; [|exact IH].
  split; intros Hx; discriminate Hx.
Qed.

Lemma rows_from_keys (n : nat) (df : DataFrame T) (row : record T) :
  In row (rows_from n df) -> map fst row = map fst df.
Proof.
  revert df. induction n as [|n IH]; intros df; [intros []|].
  cbn [rows_from]. intros [<-|Hin].
  - rewrite map_map. reflexivity.
  - rewrite (IH _ Hin), map_map. reflexivity.
Qed.

(** A row has an entry under a label exactly when the frame has the
    column. *)
Lemma row_item_key (df : DataFrame T) (row : record T) (key : string) :
  In row (iterrows df) ->
  (has_column df key = true -> exists c, row_item row key = Ok c)
  /\ (has_column df key = false -> row_item row key = Raise (KeyError key)).
Proof.
  intros Hin. apply rows_from_keys in Hin. unfold row_item, has_column.
  rewrite <- Hin. pose proof (lookup_none_iff key row) as Hl.
  destruct (lookup key row) as [c|]; split; intros Hc.
  - now exists c.
  - apply Hl in Hc. discriminate.
  - rewrite (proj1 Hl eq_refl) in Hc. discriminate.
  - reflexivity.
Qed.

Lemma lookup_map_snd {V W : Type} (f : V -> W) (key : string)
    (kvs : list (string * V)) :
  lookup key (map (fun kv => (fst kv, f (snd kv))) kvs)
  = option_map f (lookup key kvs).
Proof.
  unfold lookup. induction kvs as [|[k v] kvs IH]; [reflexivity|].
  cbn [map find fst snd]. destruct (String.eqb k key); [reflexivity|exact IH].
Qed.

(** The entry of a row under a label is an entry of that column, or the
    filler of a column that is too short. *)
Lemma rows_from_entry (n : nat) (df : DataFrame T) (row : record T)
    (key : string) (c : cell T) :
  In row (rows_from n df) -> lookup key row = Some c ->
  exists col, lookup key df = Some col /\ (In c col \/ c = CNone).
Proof.
  unfold Series. revert df. induction n as [|n IH]; intros df; [intros []|].
  cbn [rows_from]. intros [<-|Hin] Hc.
  - rewrite (lookup_map_snd (hd CNone)) in Hc.
    destruct (@lookup (list (cell T)) key df) as [col|]; simpl in Hc;
      [|discriminate Hc].
    exists col. split; [reflexivity|]. injection Hc as <-.
    destruct col as [|c0 col]; [now right|left; now left].
  - destruct (IH _ Hin Hc) as (col' & Hcol & Hor).
    rewrite (lookup_map_snd (@tl (cell T))) in Hcol.
    destruct (@lookup (list (cell T)) key df) as [col|]; simpl in Hcol;
      [|discriminate Hcol].
    injection Hcol as <-. exists col. split; [reflexivity|].
    destruct Hor as [Hc'|Hc']; [left|now right].
    destruct col; [destruct Hc'|now right].
Qed.

Lemma rows_from_length (n : nat) (df : DataFrame T) :
  List.length (rows_from n df) = n.
Proof.
  revert df. induction n as [|n IH]; intros df; [reflexivity|].
  cbn [rows_from List.length]. now rewrite IH.
Qed.

Lemma rows_from_table {P : Type} (fields : list (string * (P -> cell T)))
    (ps : list P) :
  rows_from (List.length ps) (table_of fields ps)
  = map (row_of_fields fields) ps.
Proof.
  induction ps as [|p ps IH]; [reflexivity|].
  cbn [List.length rows_from map]. f_equal.
  - unfold table_of, row_of_fields. rewrite map_map. reflexivity.
  - rewrite <- IH. f_equal. unfold table_of. rewrite map_map. reflexivity.
Qed.

Lemma iterrows_table {P : Type} (fields : list (string * (P -> cell T)))
    (ps : list P) :
  fields <> [] ->
  iterrows (table_of fields ps) = map (row_of_fields fields) ps.
Proof.
  intros Hf. unfold iterrows. rewrite <- rows_from_table. f_equal.
  destruct fields as [|[k f] fields]; [congruence|].
  cbn [table_of map nrows fst snd]. apply length_map.
Qed.

End Rows.

(** ** Portfolio.from_dataframe *)

Lemma ascii_upper_idem (c : ascii) : ascii_upper (ascii_upper c) = ascii_upper c.
Proof. destruct c as [[] [] [] [] [] [] [] []]; reflexivity. Qed.

Lemma upper_idem (s : string) : upper (upper s) = upper s.
Proof.
  induction s as [|c s IH]; [reflexivity|].
  cbn [upper]. now rewrite ascii_upper_idem, IH.
Qed.

Lemma bind_ok {A B : Type} (m : result A) (k : A -> result B) (b : B) :
  bind m k = Ok b -> exists a, m = Ok a /\ k a = Ok b.
Proof. destruct m as [a|e]; [intros Hk; now exists a|discriminate]. Qed.

Lemma bind_raise {A B : Type} (m : result A) (k : A -> result B) (e : exn) :
  bind m k = Raise e -> m = Raise e \/ exists a, m = Ok a /\ k a = Raise e.
Proof.
  destruct m as [a|e']; cbn [bind]; intros Hk.
  - right. now exists a.
  - left. now injection Hk as ->.
Qed.

Section FromDataframeFacts.

Variable float_of_text : string -> result float.
Variable text_of_float : float -> string.
Variable float_of_missing : result float.
Variable text_of_missing : string.

Local Abbreviation from_df :=
  (from_dataframe float_of_text text_of_float float_of_missing text_of_missing).
Local Abbreviation pos_of_row :=
  (position_of_row float_of_text text_of_float float_of_missing
     text_of_missing).
Local Abbreviation pos_of_rows :=
  (positions_of_rows float_of_text text_of_float float_of_missing
     text_of_missing).
Local Abbreviation to_float := (py_float float_of_text float_of_missing).

Local Open Scope string_scope.

(** The row that [to_dataframe] wrote for a position reads back as the
    position. *)
Lemma position_of_report_row (df : DataFrame float) (p : Position float)
    (extra : list (string * (Position float -> cell float))) :
  has_column df "latest_price" = true ->
  has_column df "sector" = true ->
  upper (ticker p) = ticker p ->
  (forall x, latest_price p = Some x -> is_nan x = false) ->
  pos_of_row df (row_of_fields (report_fields ++ extra) p) = Ok p.
Proof.
  intros Hlp Hsec Hup Hnan. unfold position_of_row. rewrite Hlp, Hsec.
  unfold row_of_fields, report_fields. cbn [app map fst snd].
  unfold row_item, lookup. cbn [find fst snd String.eqb Ascii.eqb Bool.eqb].
  cbn [bind py_float py_str]. rewrite Hup.
  destruct p as [t q a lp sec]. cbn [ticker quantity avg_cost latest_price sector] in *.
  destruct lp as [x|]; cbn [opt_num notna nisnan binary64].
  - rewrite (Hnan x eq_refl). cbn [negb bind py_float].
    destruct sec; reflexivity.
  - cbn [bind]. destruct sec; reflexivity.
Qed.

Lemma positions_of_report_rows (df : DataFrame float)
    (extra : list (string * (Position float -> cell float)))
    (ps : list (Position float)) :
  has_column df "latest_price" = true ->
  has_column df "sector" = true ->
  (forall p, In p ps -> upper (ticker p) = ticker p) ->
  (forall p x, In p ps -> latest_price p = Some x -> is_nan x = false) ->
  pos_of_rows df (map (row_of_fields (report_fields ++ extra)) ps) = Ok ps.
Proof.
  intros Hlp Hsec. induction ps as [|p ps IH]; intros Hup Hnan; [reflexivity|].
  cbn [map positions_of_rows].
  rewrite position_of_report_row; auto.
  - cbn [bind]. rewrite IH; [reflexivity| |].
    + intros q Hq. apply Hup. now right.
    + intros q x Hq. apply Hnan. now right.
  - apply Hup. now left.
  - intros x. apply Hnan. now left.
Qed.

(** X4.  Round trip: the report of a portfolio reads back, through
    [from_dataframe], as the same portfolio, position for position and
    field for field, provided the portfolio has a position, its tickers are
    ASCII text in upper case and no price is NaN. *)
Theorem from_dataframe_to_dataframe (pf : Portfolio float) :
  positions pf <> [] ->
  (forall p, In p (positions pf) ->
     ascii_text (ticker p) = true /\ upper (ticker p) = ticker p) ->
  (forall p x, In p (positions pf) ->
     latest_price p = Some x -> is_nan x = false) ->
  exists df, to_dataframe pf = Ok df /\ from_df df = Ok pf.
Proof.
  intros Hne Hascii Hnan.
  assert (Hup : forall p, In p (positions pf) -> upper (ticker p) = ticker p)
    by (intros p Hp; apply (Hascii p Hp)).
  eexists. split; [apply (to_dataframe_value pf Hne)|].
  unfold from_dataframe. destruct pf as [ps]. cbn [positions] in *.
  destruct (weights_computed {| positions := ps |}).
  - change (frame_of ps ++ [("weight_pct",
               map (fun p => CNum (weight_of
                      (total_value_used {| positions := ps |}) p)) ps)])%list
      with (table_of (report_fields
                      ++ [("weight_pct",
                           fun p => CNum (weight_of
                             (total_value_used {| positions := ps |}) p))])%list
                     ps).
    rewrite iterrows_table by discriminate.
    rewrite positions_of_report_rows; auto.
  - change (frame_of ps) with (table_of (report_fields ++ [])%list ps).
    rewrite iterrows_table by discriminate.
    rewrite positions_of_report_rows; auto.
Qed.

End FromDataframeFacts.

Section FromDataframeEdges.

Variable float_of_text : string -> result float.
Variable text_of_float : float -> string.
Variable float_of_missing : result float.
Variable text_of_missing : string.

Local Abbreviation from_df :=
  (from_dataframe float_of_text text_of_float float_of_missing text_of_missing).
Local Abbreviation pos_of_row :=
  (position_of_row float_of_text text_of_float float_of_missing
     text_of_missing).
Local Abbreviation pos_of_rows :=
  (positions_of_rows float_of_text text_of_float float_of_missing
     text_of_missing).
Local Abbreviation to_float := (py_float float_of_text float_of_missing).
Local Abbreviation to_text := (py_str text_of_float text_of_missing).

Local Open Scope string_scope.

Lemma first_row (df : DataFrame float) :
  nrows df <> 0%nat -> exists row rows, iterrows df = row :: rows.
Proof.
  unfold iterrows. destruct (nrows df) as [|n]; [congruence|].
  intros _. cbn [rows_from]. eauto.
Qed.

(** X5.  A frame without rows gives the empty portfolio, whatever its
    columns.  A frame with a row and no [ticker] column raises
    [KeyError('ticker')]; with a [ticker] column and no [quantity] column it
    raises [KeyError('quantity')]. *)
Theorem from_dataframe_edges (df : DataFrame float) :
  (nrows df = 0%nat -> from_df df = Ok {| positions := [] |})
  /\ (nrows df <> 0%nat -> has_column df "ticker" = false ->
      from_df df = Raise (KeyError "ticker"))
  /\ (nrows df <> 0%nat -> has_column df "ticker" = true ->
      has_column df "quantity" = false ->
      from_df df = Raise (KeyError "quantity")).
Proof.
  unfold from_dataframe. split; [|split].
  - intros Hn. unfold iterrows. rewrite Hn. reflexivity.
  - intros Hn Ht. destruct (first_row df Hn) as (row & rows & Hrows).
    rewrite Hrows. cbn [positions_of_rows]. unfold position_of_row.
    assert (Hin : In row (iterrows df)) by (rewrite Hrows; now left).
    rewrite (proj2 (row_item_key df row "ticker" Hin) Ht). reflexivity.
  - intros Hn Ht Hq. destruct (first_row df Hn) as (row & rows & Hrows).
    rewrite Hrows. cbn [positions_of_rows]. unfold position_of_row.
    assert (Hin : In row (iterrows df)) by (rewrite Hrows; now left).
    destruct (proj1 (row_item_key df row "ticker" Hin) Ht) as [c Hc].
    rewrite Hc, (proj2 (row_item_key df row "quantity" Hin) Hq). reflexivity.
Qed.

(** What a row that was read gives. *)
Lemma position_of_row_ok (df : DataFrame float) (row : record float)
    (p : Position float) :
  pos_of_row df row = Ok p ->
  upper (ticker p) = ticker p
  /\ (has_column df "latest_price" = false -> latest_price p = None)
  /\ (forall x, latest_price p = Some x ->
        exists c, lookup "latest_price" row = Some c
                  /\ notna c = true /\ to_float c = Ok x).
Proof.
  unfold position_of_row. intros Hp.
  apply bind_ok in Hp. destruct Hp as (t & _ & Hp).
  apply bind_ok in Hp. destruct Hp as (q & _ & Hp).
  apply bind_ok in Hp. destruct Hp as (q' & _ & Hp).
  apply bind_ok in Hp. destruct Hp as (a & _ & Hp).
  apply bind_ok in Hp. destruct Hp as (a' & _ & Hp).
  apply bind_ok in Hp. destruct Hp as (price & Hprice & Hp).
  apply bind_ok in Hp. destruct Hp as (sec & _ & Hp).
  injection Hp as <-. cbn [ticker latest_price].
  split; [apply upper_idem|].
  destruct (has_column df "latest_price").
  - split; [discriminate|]. intros x ->.
    apply bind_ok in Hprice. destruct Hprice as (c & Hc & Hprice).
    unfold row_item in Hc.
    destruct (lookup "latest_price" row) as [c'|]; [|discriminate Hc].
    injection Hc as ->. exists c. split; [reflexivity|].
    destruct (notna c); [|discriminate Hprice].
    apply bind_ok in Hprice. destruct Hprice as (y & Hy & Hprice).
    injection Hprice as <-. now split.
  - injection Hprice as <-. split; [reflexivity|discriminate].
Qed.

Lemma positions_of_rows_ok (df : DataFrame float) (rows : list (record float))
    (ps : list (Position float)) :
  pos_of_rows df rows = Ok ps ->
  List.length ps = List.length rows
  /\ forall p, In p ps -> exists row, In row rows /\ pos_of_row df row = Ok p.
Proof.
  revert ps. induction rows as [|row rows IH]; intros ps Hps.
  - injection Hps as <-. split; [reflexivity|intros p []].
  - cbn [positions_of_rows] in Hps.
    apply bind_ok in Hps. destruct Hps as (p & Hp & Hps).
    apply bind_ok in Hps. destruct Hps as (ps' & Hps' & Hps).
    injection Hps as <-. destruct (IH ps' Hps') as [Hlen Hall].
    split; [cbn [List.length]; congruence|].
    intros q [<-|Hq].
    + exists row. split; [now left|exact Hp].
    + destruct (Hall q Hq) as (r & Hr & Hrp). exists r. split; [now right|exact Hrp].
Qed.

(** The entry of the [i]-th row under a label is the [i]-th entry of the
    column, or the filler where the column is too short. *)
Lemma rows_from_nth (n i : nat) (df : DataFrame float) (row : record float)
    (key : string) :
  nth_error (rows_from n df) i = Some row ->
  lookup key row
  = option_map (fun col : Series float => nth i col CNone) (lookup key df).
Proof.
  unfold Series. revert i df. induction n as [|n IH]; intros i df.
  { destruct i; discriminate. }
  cbn [rows_from]. destruct i as [|i]; cbn [nth_error].
  - intros Hrow. injection Hrow as <-.
    rewrite (lookup_map_snd (hd CNone)).
    destruct (@lookup (list (cell float)) key df) as [[|c col]|]; reflexivity.
  - intros Hrow. rewrite (IH i _ Hrow), (lookup_map_snd (@tl (cell float))).
    destruct (@lookup (list (cell float)) key df) as [[|c col]|];
      cbn [option_map tl nth]; try reflexivity.
    destruct i; reflexivity.
Qed.

Lemma positions_of_rows_nth (df : DataFrame float) (rows : list (record float))
    (ps : list (Position float)) (i : nat) (p : Position float) :
  pos_of_rows df rows = Ok ps ->
  nth_error ps i = Some p ->
  exists row, nth_error rows i = Some row /\ pos_of_row df row = Ok p.
Proof.
  revert ps i. induction rows as [|row rows IH]; intros ps i Hps Hp.
  - injection Hps as <-. destruct i; discriminate Hp.
  - cbn [positions_of_rows] in Hps.
    apply bind_ok in Hps. destruct Hps as (q & Hq & Hps).
    apply bind_ok in Hps. destruct Hps as (ps' & Hps' & Hps).
    injection Hps as <-. destruct i as [|i]; cbn [nth_error] in *.
    + injection Hp as <-. now exists row.
    + apply (IH ps' i Hps' Hp).
Qed.

Lemma row_item_ok (row : record float) (key : string) (c : cell float) :
  row_item row key = Ok c -> lookup key row = Some c.
Proof.
  unfold row_item. destruct (lookup key row); [|discriminate].
  intros Hc. now injection Hc as ->.
Qed.

(** What [Position(...)] takes from a row, field by field. *)
Lemma position_of_row_fields (df : DataFrame float) (row : record float)
    (p : Position float) :
  pos_of_row df row = Ok p ->
  (exists c, lookup "ticker" row = Some c /\ ticker p = upper (to_text c))
  /\ (exists c, lookup "quantity" row = Some c /\ to_float c = Ok (quantity p))
  /\ (exists c, lookup "avg_cost" row = Some c /\ to_float c = Ok (avg_cost p))
  /\ (if has_column df "latest_price"
      then exists c, lookup "latest_price" row = Some c
             /\ if notna c
                then exists x, to_float c = Ok x /\ latest_price p = Some x
                else latest_price p = None
      else latest_price p = None)
  /\ (if has_column df "sector"
      then exists c, lookup "sector" row = Some c
             /\ sector p = if notna c then Some (to_text c) else None
      else sector p = None).
Proof.
  unfold position_of_row. intros Hp.
  apply bind_ok in Hp. destruct Hp as (t & Ht & Hp).
  apply bind_ok in Hp. destruct Hp as (q & Hq & Hp).
  apply bind_ok in Hp. destruct Hp as (q' & Hq' & Hp).
  apply bind_ok in Hp. destruct Hp as (a & Ha & Hp).
  apply bind_ok in Hp. destruct Hp as (a' & Ha' & Hp).
  apply bind_ok in Hp. destruct Hp as (price & Hprice & Hp).
  apply bind_ok in Hp. destruct Hp as (sec & Hsec & Hp).
  injection Hp as <-. cbn [ticker quantity avg_cost latest_price sector].
  split; [exists t; split; [now apply row_item_ok|reflexivity]|].
  split; [exists q; split; [now apply row_item_ok|exact Hq']|].
  split; [exists a; split; [now apply row_item_ok|exact Ha']|].
  split.
  - destruct (has_column df "latest_price").
    + apply bind_ok in Hprice. destruct Hprice as (c & Hc & Hprice).
      exists c. split; [now apply row_item_ok|].
      destruct (notna c).
      * apply bind_ok in Hprice. destruct Hprice as (x & Hx & Hprice).
        injection Hprice as <-. now exists x.
      * now injection Hprice as <-.
    + now injection Hprice as <-.
  - destruct (has_column df "sector").
    + apply bind_ok in Hsec. destruct Hsec as (c & Hc & Hsec).
      exists c. split; [now apply row_item_ok|].
      destruct (notna c); now injection Hsec as <-.
    + now injection Hsec as <-.
Qed.

Lemma has_column_lookup (df : DataFrame float) (key : string) :
  has_column df key = match lookup key df with Some _ => true | None => false end.
Proof.
  unfold has_column. pose proof (lookup_none_iff key df) as Hl.
  destruct (lookup key df) as [col|].
  - destruct (existsb (String.eqb key) (map fst df)); [reflexivity|].
    now discriminate (proj2 Hl eq_refl).
  - now apply Hl.
Qed.

(** X6.  A portfolio read from a frame has one position per row, in row
    order: the [i]-th position takes its ticker from the [i]-th entry of the
    [ticker] column, as text and upper-cased (stated of ASCII text), its
    quantity and average cost from [float] of the [i]-th entries of their
    columns, and its price and sector from the [i]-th entries of theirs.  A
    price or sector is [None] where the column is absent or the entry is
    missing or NaN.  No ticker keeps a letter a-z; without a [latest_price]
    column no position has a price; and with a [latest_price] column that
    holds numbers and missing entries only, no position has a NaN price. *)
Theorem from_dataframe_positions (df : DataFrame float) (pf : Portfolio float) :
  from_df df = Ok pf ->
  List.length (positions pf) = nrows df
  /\ (forall i p, nth_error (positions pf) i = Some p ->
        (exists col, lookup "ticker" df = Some col
           /\ (ascii_text (to_text (nth i col CNone)) = true ->
               ticker p = upper (to_text (nth i col CNone))))
        /\ (exists col, lookup "quantity" df = Some col
              /\ to_float (nth i col CNone) = Ok (quantity p))
        /\ (exists col, lookup "avg_cost" df = Some col
              /\ to_float (nth i col CNone) = Ok (avg_cost p))
        /\ match lookup "latest_price" df with
           | None => latest_price p = None
           | Some col =>
               if notna (nth i col CNone)
               then exists x, to_float (nth i col CNone) = Ok x
                              /\ latest_price p = Some x
               else latest_price p = None
           end
        /\ match lookup "sector" df with
           | None => sector p = None
           | Some col =>
               sector p = if notna (nth i col CNone)
                          then Some (to_text (nth i col CNone)) else None
           end)
  /\ (forall p, In p (positions pf) -> upper (ticker p) = ticker p)
  /\ (has_column df "latest_price" = false ->
      forall p, In p (positions pf) -> latest_price p = None)
  /\ ((forall col c s, lookup "latest_price" df = Some col ->
         In c col -> c <> CStr s) ->
      forall p x, In p (positions pf) ->
        latest_price p = Some x -> is_nan x = false).
Proof.
  unfold from_dataframe. intros Hpf.
  apply bind_ok in Hpf. destruct Hpf as (ps & Hps & Hpf). injection Hpf as <-.
  cbn [positions]. destruct (positions_of_rows_ok df _ ps Hps) as [Hlen Hall].
  split.
  { rewrite Hlen. unfold iterrows. apply rows_from_length. }
  split.
  { intros i p Hp.
    destruct (positions_of_rows_nth df _ ps i p Hps Hp) as (row & Hrow & Hpos).
    unfold iterrows in Hrow.
    destruct (position_of_row_fields df row p Hpos)
      as ((t & Ht & Hticker) & (q & Hq & Hquantity) & (a & Ha & Hcost)
          & Hprice & Hsector).
    rewrite (rows_from_nth _ i df row "ticker" Hrow) in Ht.
    rewrite (rows_from_nth _ i df row "quantity" Hrow) in Hq.
    rewrite (rows_from_nth _ i df row "avg_cost" Hrow) in Ha.
    rewrite has_column_lookup in Hprice, Hsector.
    unfold Series in *.
    split.
    { destruct (@lookup (list (cell float)) "ticker" df) as [col|];
        [|discriminate Ht].
      exists col. split; [reflexivity|]. intros _.
      cbn [option_map] in Ht. now injection Ht as <-. }
    split.
    { destruct (@lookup (list (cell float)) "quantity" df) as [col|];
        [|discriminate Hq].
      exists col. split; [reflexivity|].
      cbn [option_map] in Hq. now injection Hq as <-. }
    split.
    { destruct (@lookup (list (cell float)) "avg_cost" df) as [col|];
        [|discriminate Ha].
      exists col. split; [reflexivity|].
      cbn [option_map] in Ha. now injection Ha as <-. }
    split.
    { pose proof (rows_from_nth _ i df row "latest_price" Hrow) as Hc.
      unfold Series in Hc.
      destruct (@lookup (list (cell float)) "latest_price" df) as [col|];
        [|exact Hprice].
      destruct Hprice as (c & Hc' & Hprice). rewrite Hc in Hc'.
      cbn [option_map] in Hc'. now injection Hc' as <-. }
    { pose proof (rows_from_nth _ i df row "sector" Hrow) as Hc.
      unfold Series in Hc.
      destruct (@lookup (list (cell float)) "sector" df) as [col|];
        [|exact Hsector].
      destruct Hsector as (c & Hc' & Hsector). rewrite Hc in Hc'.
      cbn [option_map] in Hc'. now injection Hc' as <-. } }
  split.
  { intros p Hp. destruct (Hall p Hp) as (row & _ & Hrow).
    apply (position_of_row_ok df row p Hrow). }
  split.
  { intros Hno p Hp. destruct (Hall p Hp) as (row & _ & Hrow).
    now apply (position_of_row_ok df row p Hrow). }
  intros Hnum p x Hp Hx. destruct (Hall p Hp) as (row & Hin & Hrow).
  destruct (proj2 (proj2 (position_of_row_ok df row p Hrow)) x Hx)
    as (c & Hc & Hnot & Hfloat).
  destruct (rows_from_entry _ df row "latest_price" c Hin Hc)
    as (col & Hcol & [Hcin| ->]); [|discriminate Hnot].
  destruct c as [s|y|]; [|injection Hfloat as <-|discriminate Hnot].
  - exfalso. apply (Hnum col (CStr s) s Hcol Hcin). reflexivity.
  - cbn [notna nisnan binary64] in Hnot. now destruct (is_nan y).
Qed.

(** A row raises [KeyError] only for a required column that the frame
    lacks. *)
Lemma position_of_row_key_error (df : DataFrame float) (row : record float)
    (k : string) :
  (forall s k', float_of_text s <> Raise (KeyError k')) ->
  (forall k', float_of_missing <> Raise (KeyError k')) ->
  In row (iterrows df) ->
  pos_of_row df row = Raise (KeyError k) ->
  In k REQUIRED_COLUMNS /\ has_column df k = false.
Proof.
  intros Htext Hmiss Hin.
  assert (Hfloat : forall c k', to_float c <> Raise (KeyError k')).
  { intros [s|x|] k'; cbn [py_float]; [apply Htext|discriminate|apply Hmiss]. }
  assert (Hitem : forall key k',
             row_item row key = Raise (KeyError k') ->
             k' = key /\ has_column df key = false).
  { intros key k' Hr. destruct (has_column df key) eqn:Hk.
    - destruct (proj1 (row_item_key df row key Hin) Hk) as [c Hc]. congruence.
    - rewrite (proj2 (row_item_key df row key Hin) Hk) in Hr.
      injection Hr as <-. now split. }
  unfold position_of_row. intros Hp.
  apply bind_raise in Hp. destruct Hp as [Hp|(t & _ & Hp)].
  { destruct (Hitem _ _ Hp) as [-> Hk]. split; [now left|exact Hk]. }
  apply bind_raise in Hp. destruct Hp as [Hp|(q & _ & Hp)].
  { destruct (Hitem _ _ Hp) as [-> Hk].
    split; [right; now left|exact Hk]. }
  apply bind_raise in Hp. destruct Hp as [Hp|(q' & _ & Hp)].
  { now apply Hfloat in Hp. }
  apply bind_raise in Hp. destruct Hp as [Hp|(a & _ & Hp)].
  { destruct (Hitem _ _ Hp) as [-> Hk].
    split; [right; right; now left|exact Hk]. }
  apply bind_raise in Hp. destruct Hp as [Hp|(a' & _ & Hp)].
  { now apply Hfloat in Hp. }
  apply bind_raise in Hp. destruct Hp as [Hp|(price & _ & Hp)].
  { destruct (has_column df "latest_price") eqn:Hlp; [|discriminate Hp].
    apply bind_raise in Hp. destruct Hp as [Hp|(c & _ & Hp)].
    - destruct (Hitem _ _ Hp) as [_ Hk]. congruence.
    - destruct (notna c); [|discriminate Hp].
      apply bind_raise in Hp. destruct Hp as [Hp|(x & _ & Hp)];
        [now apply Hfloat in Hp|discriminate Hp]. }
  apply bind_raise in Hp. destruct Hp as [Hp|(sec & _ & Hp)]; [|discriminate Hp].
  destruct (has_column df "sector") eqn:Hsec; [|discriminate Hp].
  apply bind_raise in Hp. destruct Hp as [Hp|(c & _ & Hp)].
  - destruct (Hitem _ _ Hp) as [_ Hk]. congruence.
  - destruct (notna c); discriminate Hp.
Qed.

Lemma positions_of_rows_key_error (df : DataFrame float)
    (rows : list (record float)) (k : string) :
  (forall s k', float_of_text s <> Raise (KeyError k')) ->
  (forall k', float_of_missing <> Raise (KeyError k')) ->
  (forall row, In row rows -> In row (iterrows df)) ->
  pos_of_rows df rows = Raise (KeyError k) ->
  In k REQUIRED_COLUMNS /\ has_column df k = false.
Proof.
  intros Htext Hmiss. induction rows as [|row rows IH]; intros Hin Hr;
    [discriminate Hr|].
  cbn [positions_of_rows] in Hr.
  apply bind_raise in Hr. destruct Hr as [Hr|(p & _ & Hr)].
  - apply (position_of_row_key_error df row k Htext Hmiss); [|exact Hr].
    apply Hin. now left.
  - apply bind_raise in Hr. destruct Hr as [Hr|(ps & _ & Hr)];
      [|discriminate Hr].
    apply IH; [|exact Hr]. intros r Hrin. apply Hin. now right.
Qed.

(** X7.  [load_portfolio_csv] returns the frame it read, unchanged, exactly
    when the frame has the columns [ticker], [quantity] and [avg_cost], and
    otherwise raises a [ValueError]; on a frame it returned,
    [from_dataframe] does not raise [KeyError] ([float] itself raises
    none). *)
Theorem load_then_from_dataframe (df : DataFrame float) :
  (load_portfolio_csv df = Ok df <->
   forall c, In c REQUIRED_COLUMNS -> has_column df c = true)
  /\ (forall df', load_portfolio_csv df = Ok df' -> df' = df)
  /\ ((exists c, In c REQUIRED_COLUMNS /\ has_column df c = false) ->
      exists msg, load_portfolio_csv df = Raise (ValueError msg))
  /\ ((forall s k, float_of_text s <> Raise (KeyError k)) ->
      (forall k, float_of_missing <> Raise (KeyError k)) ->
      forall df' k, load_portfolio_csv df = Ok df' ->
        from_df df' <> Raise (KeyError k)).
Proof.
  assert (Hiff : load_portfolio_csv df = Ok df <->
                 forall c, In c REQUIRED_COLUMNS -> has_column df c = true).
  { unfold load_portfolio_csv, REQUIRED_COLUMNS. cbn [filter].
    destruct (has_column df "ticker") eqn:Ht,
             (has_column df "quantity") eqn:Hq,
             (has_column df "avg_cost") eqn:Ha; cbn [negb];
      (split;
       [ try discriminate; intros _ c [<-|[<-|[<-|[]]]]; assumption
       | intros Hall; try reflexivity;
         try (specialize (Hall "ticker" (or_introl eq_refl)); congruence);
         try (specialize (Hall "quantity" (or_intror (or_introl eq_refl)));
              congruence);
         specialize (Hall "avg_cost"
                       (or_intror (or_intror (or_introl eq_refl))));
         congruence ]). }
  assert (Hsame : forall df', load_portfolio_csv df = Ok df' -> df' = df).
  { unfold load_portfolio_csv. intros df'.
    destruct (filter _ REQUIRED_COLUMNS); [|discriminate].
    intros Heq. now injection Heq as <-. }
  split; [exact Hiff|]. split; [exact Hsame|]. split.
  - intros (c & Hc & Hno). unfold load_portfolio_csv.
    destruct (filter _ REQUIRED_COLUMNS) eqn:Hf; [|eauto].
    exfalso. assert (Hin : In c (filter (fun c0 => negb (has_column df c0))
                                   REQUIRED_COLUMNS)).
    { apply filter_In. split; [exact Hc|]. now rewrite Hno. }
    rewrite Hf in Hin. destruct Hin.
  - intros Htext Hmiss df' k Hload Hraise.
    pose proof (Hsame df' Hload) as ->.
    unfold from_dataframe in Hraise.
    apply bind_raise in Hraise. destruct Hraise as [Hr|(ps & _ & Hr)];
      [|discriminate Hr].
    destruct (positions_of_rows_key_error df _ k Htext Hmiss
                (fun row Hrow => Hrow) Hr) as [Hk Hno].
    rewrite (proj1 Hiff Hload k Hk) in Hno. discriminate.
Qed.

End FromDataframeEdges.

Lemma from_dataframe_to_dataframe_witness :
  exists df,
    to_dataframe two_priced = Ok df
    /\ from_dataframe no_number any_text (Ok nan) "nan" df = Ok two_priced.
Proof.
  apply (from_dataframe_to_dataframe no_number any_text (Ok nan) "nan"
           two_priced).
  - discriminate.
  - intros p [<-|[<-|[]]]; split; reflexivity.
  - intros p x [<-|[<-|[]]] Hx; injection Hx as <-; reflexivity.
Defined.

Lemma from_dataframe_edges_witness :
  from_dataframe no_number any_text (Ok nan) "nan" holdings_without_quantity
  = Raise (KeyError "quantity").
Proof.
  apply (proj2 (proj2 (from_dataframe_edges no_number any_text (Ok nan) "nan"
                         holdings_without_quantity))).
  - discriminate.
  - reflexivity.
  - reflexivity.
Defined.

Lemma from_dataframe_positions_witness :
  exists pf,
    from_dataframe no_number any_text (Ok nan) "nan" holdings = Ok pf
    /\ map ticker (positions pf) = ["AAA"; "BBB"; "CCC"]%string
    /\ map latest_price (positions pf) = [Some 110%float; None; None]
    /\ forall p x, In p (positions pf) ->
         latest_price p = Some x -> is_nan x = false.
Proof.
  destruct (from_dataframe no_number any_text (Ok nan) "nan" holdings)
    as [pf|e] eqn:Hpf; [|vm_compute in Hpf; discriminate Hpf].
  exists pf. split; [reflexivity|].
  assert (Hval : Ok pf = from_dataframe no_number any_text (Ok nan) "nan" holdings)
    by (symmetry; exact Hpf).
  vm_compute in Hval. injection Hval as Heq.
  split; [rewrite Heq; reflexivity|]. split; [rewrite Heq; reflexivity|].
  apply (from_dataframe_positions no_number any_text (Ok nan) "nan"
           holdings pf Hpf).
  intros col c s Hcol Hc. vm_compute in Hcol. injection Hcol as <-.
  destruct Hc as [<-|[<-|[<-|[]]]]; discriminate.
Defined.

Lemma load_then_from_dataframe_witness :
  load_portfolio_csv holdings = Ok holdings
  /\ forall k,
       from_dataframe no_number any_text (Ok nan) "nan" holdings
       <> Raise (KeyError k).
Proof.
  destruct (load_then_from_dataframe no_number any_text (Ok nan) "nan" holdings)
    as (Hiff & _ & _ & Hkey).
  assert (Hload : load_portfolio_csv holdings = Ok holdings).
  { apply Hiff. intros c [<-|[<-|[<-|[]]]]; reflexivity. }
  split; [exact Hload|]. intros k.
  apply (Hkey (fun s k' => ltac:(discriminate))
              (fun k' => ltac:(discriminate)) holdings k Hload).
Defined.

(** ** NaN and zero in the valuation, on binary64 *)

Section FloatValuation.

Local Open Scope float_scope.

Lemma is_nan_add (a b : float) :
  is_nan a = true \/ is_nan b = true -> is_nan (a + b) = true.
Proof.
  rewrite !is_nan_Prim2SF, FloatAxioms.add_spec. unfold SF64add.
  destruct (Prim2SF a) as [sa|sa| |sa ma ea], (Prim2SF b) as [sb|sb| |sb mb eb];
    cbn [SFadd]; intros [Hx|Hx]; try discriminate Hx; reflexivity.
Qed.

Lemma is_nan_sub (a b : float) :
  is_nan a = true \/ is_nan b = true -> is_nan (a - b) = true.
Proof.
  rewrite !is_nan_Prim2SF, FloatAxioms.sub_spec. unfold SF64sub.
  destruct (Prim2SF a) as [sa|sa| |sa ma ea], (Prim2SF b) as [sb|sb| |sb mb eb];
    cbn [SFsub]; intros [Hx|Hx]; try discriminate Hx; reflexivity.
Qed.

Lemma sum_stays_nan (xs : list float) (acc : float) :
  is_nan acc = true -> is_nan (fold_left PrimFloat.add xs acc) = true.
Proof.
  revert acc. induction xs as [|x xs IH]; intros acc Hacc; [exact Hacc|].
  cbn [fold_left]. apply IH, is_nan_add. now left.
Qed.

(** One NaN among the items makes the sum NaN. *)
Lemma sum_with_nan (xs : list float) (acc : float) :
  (exists x, In x xs /\ is_nan x = true) ->
  is_nan (fold_left PrimFloat.add xs acc) = true.
Proof.
  revert acc. induction xs as [|x xs IH]; intros acc (y & Hin & Hy);
    [destruct Hin|].
  cbn [fold_left]. destruct Hin as [->|Hin].
  - apply sum_stays_nan, is_nan_add. now right.
  - apply IH. now exists y.
Qed.

Lemma defined_values_in (ps : list (Position float)) (p : Position float)
    (v : float) :
  In p ps -> market_value p = Some v -> In v (defined_values ps).
Proof.
  induction ps as [|q ps IH]; intros Hin Hv; [destruct Hin|].
  cbn [defined_values]. destruct Hin as [->|Hin].
  - rewrite Hv. now left.
  - destruct (market_value q); [right|]; now apply IH.
Qed.

(** X8.  One NaN poisons the totals: if the cost basis of some position is
    NaN, [total_cost_basis] is NaN; if the market value of some position is
    NaN, [total_market_value] and [total_unrealized_pl] are defined and
    NaN. *)
Theorem nan_poisons_totals (pf : Portfolio float) :
  ((exists p, In p (positions pf) /\ is_nan (cost_basis p) = true) ->
   is_nan (total_cost_basis pf) = true)
  /\ ((exists p v, In p (positions pf) /\ market_value p = Some v
                   /\ is_nan v = true) ->
      exists t u, total_market_value pf = Some t /\ is_nan t = true
                  /\ total_unrealized_pl pf = Some u /\ is_nan u = true).
Proof.
  split.
  - intros (p & Hin & Hnan). unfold total_cost_basis, py_sum.
    apply (sum_with_nan (map cost_basis (positions pf))).
    exists (cost_basis p). split; [now apply in_map|exact Hnan].
  - intros (p & v & Hin & Hv & Hnan).
    pose proof (defined_values_in _ p v Hin Hv) as Hdv.
    assert (Ht : is_nan (py_sum (defined_values (positions pf))) = true).
    { apply (sum_with_nan (defined_values (positions pf))). now exists v. }
    unfold total_unrealized_pl, total_market_value.
    destruct (defined_values (positions pf)) as [|v0 vs] eqn:Hd; [destruct Hdv|].
    eexists. eexists. split; [reflexivity|]. split; [exact Ht|].
    split; [reflexivity|]. apply is_nan_sub. now left.
Qed.

(** X9.  The report reads a NaN market value as a missing one: whenever it
    carries weights, a position whose market value is NaN has the weight 0.0
    exactly. *)
Theorem nan_weight_is_zero (pf : Portfolio float) (df : DataFrame float)
    (ws : Series float) (i : nat) (p : Position float) (v : float) :
  to_dataframe pf = Ok df ->
  weight_pct df = Some ws ->
  nth_error (positions pf) i = Some p ->
  market_value p = Some v ->
  is_nan v = true ->
  nth_error ws i = Some (CNum 0).
Proof.
  intros Hdf Hws Hi Hv Hnan.
  assert (Hne : positions pf <> []).
  { intros Hnil. rewrite Hnil in Hi. destruct i; discriminate. }
  rewrite (to_dataframe_value pf Hne) in Hdf.
  destruct (weights_computed pf) eqn:Hw.
  - injection Hdf as <-.
    change (Some (map (fun q => CNum (weight_of (total_value_used pf) q))
                      (positions pf)) = Some ws) in Hws.
    injection Hws as <-.
    rewrite nth_error_map, Hi. cbn [option_map].
    unfold weights_computed in Hw. apply andb_prop in Hw. destruct Hw as [_ Ht].
    unfold weight_of. rewrite Hv. cbn [nisnan ndiv nmul n0 n100 binary64].
    rewrite Hnan. cbn [nltb n0 binary64] in Ht.
    now rewrite (zero_over_positive _ Ht).
  - injection Hdf as <-. discriminate.
Qed.

Lemma eqb_zero_sf (x : float) :
  (x =? 0) = true -> exists s, Prim2SF x = S754_zero s.
Proof.
  rewrite FloatAxioms.eqb_spec. change (Prim2SF 0) with (S754_zero false).
  destruct (Prim2SF x) as [s|s| |s m e]; cbn; try discriminate.
  - eauto.
  - destruct s; discriminate.
  - destruct s; discriminate.
Qed.

(** X10.  A zero average cost leaves [unrealized_pl_pct] undefined whatever
    the price, for every finite quantity: the cost basis is then a zero. *)
Theorem zero_cost_has_no_pct (p : Position float) :
  (avg_cost p =? 0) = true ->
  is_finite (quantity p) = true ->
  (cost_basis p =? 0) = true /\ unrealized_pl_pct p = Ok None.
Proof.
  intros Hzero Hfin.
  assert (Hcb : (cost_basis p =? 0) = true).
  { unfold cost_basis. cbn [nmul binary64].
    rewrite FloatAxioms.eqb_spec, FloatAxioms.mul_spec.
    destruct (eqb_zero_sf _ Hzero) as [s Hs]. rewrite Hs.
    apply is_finite_sf in Hfin.
    change (Prim2SF 0) with (S754_zero false).
    destruct (Prim2SF (quantity p)) as [sq|sq| |sq mq eq]; cbn in *;
      try tauto; reflexivity. }
  split; [exact Hcb|].
  unfold unrealized_pl_pct. destruct (unrealized_pl p); [|reflexivity].
  cbn [neqb n0 binary64]. now rewrite Hcb.
Qed.

End FloatValuation.

Lemma nan_poisons_totals_witness :
  let pf := {| positions :=
                 [ {| ticker := "AAA"; quantity := 10%float;
                      avg_cost := 100%float; latest_price := Some 110%float;
                      sector := None |};
                   {| ticker := "BAD"; quantity := 1%float;
                      avg_cost := 1%float; latest_price := Some nan;
                      sector := None |} ] |} in
  exists t, total_market_value pf = Some t /\ is_nan t = true.
Proof.
  intros pf.
  destruct (proj2 (nan_poisons_totals pf)) as (t & u & Ht & Hnan & _).
  - eexists. exists nan. split; [right; left; reflexivity|].
    split; reflexivity.
  - now exists t.
Defined.

Lemma nan_weight_is_zero_witness :
  let pf := {| positions :=
                 [ {| ticker := "AAA"; quantity := 10%float;
                      avg_cost := 100%float; latest_price := Some 110%float;
                      sector := None |};
                   {| ticker := "BAD"; quantity := 1%float;
                      avg_cost := 1%float; latest_price := Some nan;
                      sector := None |} ] |} in
  exists df ws,
    to_dataframe pf = Ok df /\ weight_pct df = Some ws
    /\ nth_error ws 1 = Some (CNum 0%float).
Proof.
  intros pf. eexists. eexists.
  split; [vm_compute; reflexivity|].
  split; [vm_compute; reflexivity|].
  eapply (nan_weight_is_zero pf _ _ 1 _ nan).
  - vm_compute; reflexivity.
  - vm_compute; reflexivity.
  - reflexivity.
  - reflexivity.
  - reflexivity.
Defined.

Lemma zero_cost_has_no_pct_witness :
  unrealized_pl_pct {| ticker := "GIFT"; quantity := 10%float;
                       avg_cost := 0%float; latest_price := Some 5%float;
                       sector := None |} = Ok None.
Proof.
  apply (zero_cost_has_no_pct _); reflexivity.
Defined.

(** ** Totals and weights in exact arithmetic *)

Section ExactTotals.

Local Open Scope Q_scope.

Lemma Qsum_priced (ps : list (Position Q)) (a b : Q) :
  (forall p, In p ps -> latest_price p <> None) ->
  fold_left Qplus (defined_values ps) a
  - fold_left Qplus (map cost_basis ps) b
  == fold_left Qplus (map gained ps) (a - b).
Proof.
  revert a b. induction ps as [|p ps IH]; intros a b Hall; [reflexivity|].
  assert (Hp : latest_price p <> None) by (apply Hall; now left).
  cbn [defined_values map]. unfold gained at 1, unrealized_pl.
  unfold market_value at 1 2.
  destruct (latest_price p) as [price|]; [|congruence].
  cbn [fold_left].
  rewrite IH by (intros q Hq; apply Hall; now right).
  rewrite (Qsum_shift (map gained ps) (_ - _)),
          (Qsum_shift (map gained ps) (_ + _)).
  cbn [nmul nsub exact]. ring.
Qed.

(** X11.  In exact arithmetic, when every position has a price, the total
    unrealized profit is the sum of the profits of the positions. *)
Theorem exact_total_unrealized_pl (pf : Portfolio Q) :
  positions pf <> [] ->
  (forall p, In p (positions pf) -> latest_price p <> None) ->
  exists t,
    total_unrealized_pl pf = Some t
    /\ t == py_sum (map gained (positions pf)).
Proof.
  intros Hne Hall. unfold total_unrealized_pl, total_market_value.
  destruct (defined_values (positions pf)) as [|v vs] eqn:Hd.
  - exfalso. destruct (positions pf) as [|p ps]; [congruence|].
    apply (Hall p (or_introl eq_refl)).
    pose proof (proj1 (defined_values_nil (p :: ps)) Hd p (or_introl eq_refl))
      as Hmv.
    unfold market_value in Hmv. now destruct (latest_price p).
  - eexists. split; [reflexivity|].
    rewrite <- Hd. unfold total_cost_basis, py_sum. cbn [nsub n0 nadd exact].
    rewrite (Qsum_priced _ 0 0 Hall).
    rewrite (Qsum_shift _ (0 - 0)), (Qsum_shift _ 0). ring.
Qed.

Lemma Qsum_nonneg (xs : list Q) :
  (forall x, In x xs -> 0 <= x) -> 0 <= fold_left Qplus xs 0.
Proof.
  induction xs as [|x xs IH]; intros Hall; [apply Qle_refl|].
  cbn [fold_left]. rewrite Qsum_shift.
  rewrite <- (Qplus_0_r 0) at 1. apply Qplus_le_compat.
  - rewrite Qplus_0_l. apply Hall. now left.
  - apply IH. intros y Hy. apply Hall. now right.
Qed.

Lemma Qsum_bounds_items (xs : list Q) (x : Q) :
  (forall y, In y xs -> 0 <= y) -> In x xs -> x <= fold_left Qplus xs 0.
Proof.
  induction xs as [|y xs IH]; intros Hall Hin; [destruct Hin|].
  cbn [fold_left]. rewrite Qsum_shift, Qplus_0_l.
  assert (Hy : 0 <= y) by (apply Hall; now left).
  assert (Hrest : 0 <= fold_left Qplus xs 0).
  { apply Qsum_nonneg. intros z Hz. apply Hall. now right. }
  destruct Hin as [->|Hin].
  - rewrite <- (Qplus_0_r x) at 1. apply Qplus_le_compat; [apply Qle_refl|exact Hrest].
  - rewrite <- (Qplus_0_l x). apply Qplus_le_compat; [exact Hy|].
    apply IH; [|exact Hin]. intros z Hz. apply Hall. now right.
Qed.

Lemma exact_weight_of (t : Q) (p : Position Q) :
  weight_of t p = brought p / t * 100.
Proof. unfold weight_of, brought. destruct (market_value p); reflexivity. Qed.

(** X12.  In exact arithmetic, when weights are computed and no market
    value is negative, every weight lies between 0 and 100. *)
Theorem exact_long_only_weights (pf : Portfolio Q) (p : Position Q) :
  weights_computed pf = true ->
  (forall q, In q (positions pf) -> 0 <= brought q) ->
  In p (positions pf) ->
  0 <= weight_of (total_value_used pf) p
  /\ weight_of (total_value_used pf) p <= 100.
Proof.
  intros Hw Hall Hin. rewrite exact_weight_of.
  unfold weights_computed in Hw. apply andb_prop in Hw. destruct Hw as [_ Hpos].
  assert (Ht : 0 < total_value_used pf).
  { cbn [nltb n0 exact] in Hpos. apply Qnot_le_lt. intros Hle.
    apply Qle_bool_iff in Hle. now rewrite Hle in Hpos. }
  assert (Hle : brought p <= total_value_used pf).
  { rewrite exact_total. apply Qsum_bounds_items.
    - intros y Hy. apply in_map_iff in Hy. destruct Hy as (q & <- & Hq).
      now apply Hall.
    - now apply in_map. }
  split.
  - apply Qmult_le_0_compat; [|discriminate].
    apply Qle_shift_div_l; [exact Ht|]. rewrite Qmult_0_l. now apply Hall.
  - change 100 with (1 * 100) at 2. apply Qmult_le_compat_r; [|discriminate].
    apply Qle_shift_div_r; [exact Ht|]. now rewrite Qmult_1_l.
Qed.

End ExactTotals.

Lemma exact_total_unrealized_pl_witness :
  exists t, total_unrealized_pl two_priced_exact = Some t /\ (t == 0)%Q.
Proof.
  destruct (exact_total_unrealized_pl two_priced_exact) as (t & Ht & Heq).
  - discriminate.
  - intros p [<-|[<-|[]]]; discriminate.
  - exists t. split; [exact Ht|]. rewrite Heq. reflexivity.
Defined.

Lemma exact_long_only_weights_witness :
  (weight_of (total_value_used two_priced_exact)
     {| ticker := "AAA"; quantity := 10%Q; avg_cost := 100%Q;
        latest_price := Some 110%Q; sector := None |} <= 100)%Q.
Proof.
  apply (exact_long_only_weights two_priced_exact).
  - vm_compute; reflexivity.
  - intros q [<-|[<-|[]]]; vm_compute; discriminate.
  - left; reflexivity.
Defined.

(** ** Daily returns: order, dates and short histories *)

Section ReturnsFacts.

Local Open Scope float_scope.

Lemma same_key_same_row (l : list (Z * list float)) (a b : Z * list float) :
  NoDup (map fst l) -> In a l -> In b l -> fst a = fst b -> a = b.
Proof.
  induction l as [|r l IH]; intros Hnd Ha Hb Hk; [destruct Ha|].
  cbn [map] in Hnd. apply NoDup_cons_iff in Hnd. destruct Hnd as [Hr Hnd].
  destruct Ha as [<-|Ha], Hb as [<-|Hb].
  - reflexivity.
  - exfalso. apply Hr. rewrite Hk. now apply in_map.
  - exfalso. apply Hr. rewrite <- Hk. now apply in_map.
  - now apply IH.
Qed.

(** Two arrangements of the same rows, both in date order, are the same
    when no date repeats. *)
Lemma sorted_rows_unique (l1 l2 : list (Z * list float)) :
  StronglySorted Z.le (map fst l1) ->
  StronglySorted Z.le (map fst l2) ->
  NoDup (map fst l1) ->
  Permutation l1 l2 ->
  l1 = l2.
Proof.
  revert l2. induction l1 as [|a l1 IH]; intros l2 Hs1 Hs2 Hnd Hp.
  - apply Permutation_nil in Hp. now subst.
  - destruct l2 as [|b l2].
    { symmetry in Hp. apply Permutation_nil in Hp. discriminate. }
    cbn [map] in Hs1, Hs2.
    apply StronglySorted_inv in Hs1. destruct Hs1 as [Hs1 Hall1].
    apply StronglySorted_inv in Hs2. destruct Hs2 as [Hs2 Hall2].
    rewrite Forall_forall in Hall1, Hall2.
    assert (Hab : (fst a <= fst b)%Z).
    { assert (Hb : In b (a :: l1)).
      { apply (Permutation_in b (Permutation_sym Hp)). now left. }
      destruct Hb as [->|Hb]; [lia|]. apply Hall1. now apply in_map. }
    assert (Hba : (fst b <= fst a)%Z).
    { assert (Ha : In a (b :: l2)).
      { apply (Permutation_in a Hp). now left. }
      destruct Ha as [->|Ha]; [lia|]. apply Hall2. now apply in_map. }
    assert (Heq : a = b).
    { apply (same_key_same_row (a :: l1)); [exact Hnd|now left| |lia].
      apply (Permutation_in b (Permutation_sym Hp)). now left. }
    subst b. f_equal. apply IH; [exact Hs1|exact Hs2| |].
    + cbn [map] in Hnd. now apply NoDup_cons_iff in Hnd.
    + now apply Permutation_cons_inv in Hp.
Qed.

(** X13.  The order in which the caller lists the rows does not matter:
    two price histories with the same labels and the same rows, in any
    order and without a repeated date, have the same daily returns. *)
Theorem compute_daily_returns_any_order (fill : fill_method)
    (ls : list string) (rows rows' : list (Z * list float)) :
  Permutation rows rows' ->
  NoDup (map fst rows) ->
  compute_daily_returns fill {| labels := ls; body := rows |}
  = compute_daily_returns fill {| labels := ls; body := rows' |}.
Proof.
  intros Hp Hnd. unfold compute_daily_returns, empty, shape0, shape1.
  cbn [labels body]. rewrite (Permutation_length Hp).
  assert (Hsort : sort_index rows = sort_index rows').
  { apply sorted_rows_unique.
    - apply sort_index_sorted.
    - apply sort_index_sorted.
    - apply (Permutation_NoDup (l := map fst rows)); [|exact Hnd].
      apply Permutation_map, Permutation_sym, sort_index_perm.
    - rewrite sort_index_perm, Hp. symmetry. apply sort_index_perm. }
  now rewrite Hsort.
Qed.

Lemma returns_body (fill : fill_method) (ph : Frame) :
  empty ph = false ->
  body (compute_daily_returns fill ph)
  = filter some_defined
      (row_over_row (filled fill (sort_index (body ph)))).
Proof.
  intros He. unfold compute_daily_returns. rewrite He. cbn [body].
  apply pct_change_value.
Qed.

Lemma returns_dates (fill : fill_method) (ph : Frame) (d : Z) :
  In d (map fst (body (compute_daily_returns fill ph))) ->
  empty ph = false
  /\ In d (tl (map fst (sort_index (body ph)))).
Proof.
  destruct (empty ph) eqn:He.
  - unfold compute_daily_returns. rewrite He. intros [].
  - rewrite (returns_body fill ph He). intros Hd. split; [reflexivity|].
    apply in_map_iff in Hd. destruct Hd as (r & <- & Hr).
    apply filter_In in Hr. destruct Hr as [Hr _].
    rewrite <- (filled_dates fill), <- row_over_row_dates. now apply in_map.
Qed.

(** X14.  Every date of the daily returns is a date of the price history,
    and when no date repeats it is strictly later than some other date of
    the history: the earliest date has no return.  Every row of the daily
    returns holds a number for at least one ticker. *)
Theorem daily_returns_dates (fill : fill_method) (ph : Frame) :
  (forall d, In d (map fst (body (compute_daily_returns fill ph))) ->
     In d (map fst (body ph))
     /\ (NoDup (map fst (body ph)) ->
         exists d0, In d0 (map fst (body ph)) /\ (d0 < d)%Z))
  /\ (forall r, In r (body (compute_daily_returns fill ph)) ->
        exists x, In x (snd r) /\ is_nan x = false).
Proof.
  split.
  - intros d Hd. apply returns_dates in Hd. destruct Hd as [He Hd].
    pose proof (sort_index_sorted (body ph)) as Hs.
    pose proof (Permutation_map fst (sort_index_perm (body ph))) as Hp.
    destruct (map fst (sort_index (body ph))) as [|d0 ds] eqn:Hds;
      [destruct Hd|].
    cbn [tl] in Hd. split.
    + apply (Permutation_in d Hp). now right.
    + intros Hnd. exists d0. split; [apply (Permutation_in d0 Hp); now left|].
      apply StronglySorted_inv in Hs. destruct Hs as [_ Hall].
      rewrite Forall_forall in Hall. specialize (Hall d Hd).
      assert (Hnd' : NoDup (d0 :: ds)).
      { apply (Permutation_NoDup (Permutation_sym Hp) Hnd). }
      apply NoDup_cons_iff in Hnd'. destruct Hnd' as [Hnot _].
      assert (d0 <> d) by (intros ->; contradiction). lia.
  - intros r Hr. destruct (empty ph) eqn:He.
    + unfold compute_daily_returns in Hr. rewrite He in Hr. destruct Hr.
    + rewrite (returns_body fill ph He) in Hr.
      apply filter_In in Hr. destruct Hr as [_ Hr].
      unfold some_defined in Hr. apply existsb_exists in Hr.
      destruct Hr as (x & Hx & Hnan). exists x. split; [exact Hx|].
      now destruct (is_nan x).
Qed.

Lemma row_over_row_length (rs : list (Z * list float)) :
  List.length (row_over_row rs) = Nat.pred (List.length rs).
Proof.
  rewrite <- (length_map fst), row_over_row_dates, <- (length_map fst rs).
  now destruct (map fst rs).
Qed.

Lemma filled_length (fill : fill_method) (rs : list (Z * list float)) :
  List.length (filled fill rs) = List.length rs.
Proof. now rewrite <- (length_map fst), filled_dates, length_map. Qed.

(** X15.  A price history of at most one row has no daily returns: the
    return table is empty, so [annualized_volatility] gives the empty
    mapping and [portfolio_volatility] gives [None], whatever the weights,
    their number included. *)
Theorem short_history_has_no_risk (fill : fill_method) (ph : Frame)
    (weights : list float) (trading_days : Z) :
  (shape0 ph <= 1)%nat ->
  body (compute_daily_returns fill ph) = []
  /\ annualized_volatility (compute_daily_returns fill ph) trading_days = []
  /\ portfolio_volatility (compute_daily_returns fill ph) weights trading_days
     = Ok None.
Proof.
  intros Hrows.
  assert (Hbody : body (compute_daily_returns fill ph) = []).
  { destruct (empty ph) eqn:He.
    - unfold compute_daily_returns. now rewrite He.
    - rewrite (returns_body fill ph He).
      assert (Hlen : List.length (row_over_row
                        (filled fill (sort_index (body ph)))) = 0%nat).
      { rewrite row_over_row_length, filled_length, sort_index_length.
        unfold shape0 in Hrows. lia. }
      apply length_zero_iff_nil in Hlen. now rewrite Hlen. }
  assert (He : empty (compute_daily_returns fill ph) = true).
  { unfold empty, shape0. now rewrite Hbody. }
  split; [exact Hbody|]. split.
  - unfold annualized_volatility, annualized_volatility_by. now rewrite He.
  - unfold portfolio_volatility. now rewrite He.
Qed.

End ReturnsFacts.

Lemma compute_daily_returns_any_order_witness :
  compute_daily_returns pad
    {| labels := ["AAA"%string];
       body := [ (2%Z, [102%float]); (0%Z, [100%float]); (1%Z, [101%float]) ] |}
  = compute_daily_returns pad
      {| labels := ["AAA"%string];
         body := [ (0%Z, [100%float]); (1%Z, [101%float]); (2%Z, [102%float]) ] |}.
Proof.
  apply compute_daily_returns_any_order.
  - eapply perm_trans; [apply perm_swap|apply perm_skip, perm_swap].
  - repeat constructor; cbn; intuition discriminate.
Defined.

Lemma daily_returns_dates_witness :
  In 1%Z (map fst (body (compute_daily_returns no_fill two_tickers)))
  /\ exists d0, In d0 (map fst (body two_tickers)) /\ (d0 < 1)%Z.
Proof.
  assert (Hd : In 1%Z (map fst (body (compute_daily_returns no_fill two_tickers))))
    by (vm_compute; left; reflexivity).
  split; [exact Hd|].
  apply (proj1 (daily_returns_dates no_fill two_tickers) 1%Z Hd).
  repeat constructor; cbn; intuition discriminate.
Defined.

Lemma short_history_has_no_risk_witness :
  portfolio_volatility (compute_daily_returns pad single_day)
    [0.5%float; 0.5%float] 252 = Ok None.
Proof.
  apply (short_history_has_no_risk pad single_day [0.5%float; 0.5%float] 252).
  cbn. lia.
Defined.

(** ** The sign of a volatility *)

Section VolatilitySign.

Lemma sf_nonneg_not_negative (x : spec_float) : sf_nonneg x -> sf_not_negative x.
Proof. destruct x; simpl; auto. Qed.

(** A square root is NaN or not negative. *)
Lemma SFsqrt_not_negative (x : spec_float) : sf_not_negative (SF64sqrt x).
Proof.
  destruct x as [s|s| |s m e].
  - apply sf_nonneg_not_negative, (SFsqrt_nonneg (S754_zero s)). exact I.
  - destruct s; [exact I|].
    apply sf_nonneg_not_negative, (SFsqrt_nonneg (S754_infinity false)).
    reflexivity.
  - exact I.
  - destruct s; [exact I|].
    apply sf_nonneg_not_negative, (SFsqrt_nonneg (S754_finite false m e)).
    reflexivity.
Qed.

Lemma SFmul_not_negative (x y : spec_float) :
  sf_not_negative x -> sf_not_negative y -> sf_not_negative (SF64mul x y).
Proof.
  destruct x as [sx|sx| |sx mx ex], y as [sy|sy| |sy my ey]; simpl;
    try tauto; intros Hx Hy; subst; try reflexivity.
  apply sf_nonneg_not_negative, signed_nonneg, binary_round_aux_signed. lia.
Qed.

Local Open Scope float_scope.

Lemma not_negative_ltb (v : float) :
  sf_not_negative (Prim2SF v) -> (v <? 0) = false.
Proof.
  rewrite FloatAxioms.ltb_spec. change (Prim2SF 0) with (S754_zero false).
  destruct (Prim2SF v) as [s|s| |s m e]; simpl; try reflexivity;
    intros ->; reflexivity.
Qed.

Lemma is_nan_sqrt (v : float) : is_nan v = true -> is_nan (PrimFloat.sqrt v) = true.
Proof.
  rewrite !is_nan_Prim2SF, FloatAxioms.sqrt_spec.
  destruct (Prim2SF v); try discriminate. reflexivity.
Qed.

Lemma is_nan_mul_l (a b : float) : is_nan a = true -> is_nan (a * b) = true.
Proof.
  rewrite !is_nan_Prim2SF, FloatAxioms.mul_spec.
  destruct (Prim2SF a); try discriminate. reflexivity.
Qed.

(** X16.  [annualized_volatility] never reports a negative volatility:
    every value is NaN or not below zero, whatever the returns and whatever
    [trading_days]. *)
Theorem annualized_volatility_not_negative (returns : Frame)
    (trading_days : Z) (l : string) (v : float) :
  In (l, v) (annualized_volatility returns trading_days) ->
  (v <? 0) = false.
Proof.
  unfold annualized_volatility, annualized_volatility_by.
  destruct (empty returns); [intros []|].
  intros Hin. apply in_map_iff in Hin. destruct Hin as (c & Heq & _).
  injection Heq as _ <-. apply not_negative_ltb.
  rewrite FloatAxioms.mul_spec. unfold nanstd_by.
  rewrite !FloatAxioms.sqrt_spec.
  apply SFmul_not_negative; apply SFsqrt_not_negative.
Qed.

(** X17.  A volatility that [portfolio_volatility] returns is never below
    zero.  It is NaN when the daily variance is NaN, which the guard lets
    through; and when the square root of [trading_days] is a positive finite
    number, it is NaN only then. *)
Theorem portfolio_volatility_sign (returns : Frame) (weights : list float)
    (trading_days : Z) (v : float) :
  portfolio_volatility returns weights trading_days = Ok (Some v) ->
  (v <? 0) = false
  /\ (is_nan (daily_var returns weights) = true -> is_nan v = true)
  /\ ((0 <? PrimFloat.sqrt (float_of_int trading_days)) = true ->
      is_finite (PrimFloat.sqrt (float_of_int trading_days)) = true ->
      is_nan v = true -> is_nan (daily_var returns weights) = true).
Proof.
  unfold portfolio_volatility. destruct (empty returns); [discriminate|].
  destruct (negb _); [discriminate|].
  destruct (daily_var returns weights <? 0) eqn:Hlt; [discriminate|].
  intros Hv. injection Hv as <-. split; [|split].
  - apply not_negative_ltb. rewrite FloatAxioms.mul_spec, !FloatAxioms.sqrt_spec.
    apply SFmul_not_negative; apply SFsqrt_not_negative.
  - intros Hnan. now apply is_nan_mul_l, is_nan_sqrt.
  - intros Hpos Hfin Hnan.
    destruct (is_nan (daily_var returns weights)) eqn:Hvar; [reflexivity|].
    exfalso.
    assert (Hdef : is_nan (PrimFloat.sqrt (daily_var returns weights)
                           * PrimFloat.sqrt (float_of_int trading_days)) = false).
    { apply defined_not_nan, sf_nonneg_defined.
      rewrite FloatAxioms.mul_spec.
      apply SFmul_nonneg_posfin; [|now apply positive_finite_sf].
      rewrite FloatAxioms.sqrt_spec. apply SFsqrt_nonneg.
      now apply ltb_false_nonneg. }
    congruence.
Qed.

Lemma column_length (f : Frame) (j : nat) :
  List.length (column f j) = shape0 f.
Proof. unfold column, shape0. apply length_map. Qed.

(** X18.  A single row of returns is not enough for a volatility: on a
    return table with one row [annualized_volatility] gives every ticker
    NaN. *)
Theorem one_row_gives_nan (returns : Frame) (trading_days : Z)
    (l : string) (v : float) :
  shape0 returns = 1%nat ->
  In (l, v) (annualized_volatility returns trading_days) ->
  is_nan v = true.
Proof.
  intros Hone. unfold annualized_volatility, annualized_volatility_by.
  destruct (empty returns); [intros []|].
  intros Hin. apply in_map_iff in Hin. destruct Hin as (c & Heq & Hc).
  injection Heq as _ <-. apply is_nan_mul_l, is_nan_sqrt.
  unfold columns in Hc. apply in_map_iff in Hc.
  destruct Hc as (lj & <- & _). cbn [snd]. unfold nanstd_by, nanvar_by.
  assert (Hlen : (List.length (observations (column returns (snd lj))) <= 1)%nat).
  { unfold observations. rewrite <- Hone, <- (column_length returns (snd lj)).
    apply filter_length_le. }
  destruct (Nat.leb_spec (List.length (observations (column returns (snd lj)))) 1);
    [reflexivity|lia].
Qed.

End VolatilitySign.

Lemma annualized_volatility_not_negative_witness :
  exists v,
    In ("AAA"%string, v)
       (annualized_volatility (compute_daily_returns no_fill two_tickers) 252)
    /\ (v <? 0)%float = false.
Proof.
  assert (E : exists v rest,
             annualized_volatility (compute_daily_returns no_fill two_tickers) 252
             = ("AAA"%string, v) :: rest)
    by (vm_compute; eexists; eexists; reflexivity).
  destruct E as (v & rest & E). exists v.
  assert (Hin : In ("AAA"%string, v)
                  (annualized_volatility
                     (compute_daily_returns no_fill two_tickers) 252))
    by (rewrite E; left; reflexivity).
  split; [exact Hin|].
  apply (annualized_volatility_not_negative
           (compute_daily_returns no_fill two_tickers) 252 "AAA"%string v Hin).
Defined.

Lemma portfolio_volatility_sign_witness :
  exists v,
    portfolio_volatility (compute_daily_returns no_fill two_tickers)
      [0.6%float; 0.4%float] 252 = Ok (Some v)
    /\ (v <? 0)%float = false.
Proof.
  destruct (portfolio_volatility (compute_daily_returns no_fill two_tickers)
              [0.6%float; 0.4%float] 252) as [[v|]|e] eqn:Hv;
    try (vm_compute in Hv; discriminate Hv).
  exists v. split; [reflexivity|].
  apply (portfolio_volatility_sign _ _ _ v Hv).
Defined.

Lemma one_row_gives_nan_witness :
  exists v,
    In ("AAA"%string, v)
       (annualized_volatility (compute_daily_returns no_fill two_days) 252)
    /\ is_nan v = true.
Proof.
  assert (E : exists v rest,
             annualized_volatility (compute_daily_returns no_fill two_days) 252
             = ("AAA"%string, v) :: rest)
    by (vm_compute; eexists; eexists; reflexivity).
  destruct E as (v & rest & E). exists v.
  assert (Hin : In ("AAA"%string, v)
                  (annualized_volatility
                     (compute_daily_returns no_fill two_days) 252))
    by (rewrite E; left; reflexivity).
  split; [exact Hin|].
  apply (one_row_gives_nan (compute_daily_returns no_fill two_days) 252
           "AAA"%string v); [reflexivity|exact Hin].
Defined.

(** ** Books without a positive market value *)

Section ShortBooks.

Lemma signed_nonpos (x : spec_float) : signed true x -> sf_nonpos x.
Proof. destruct x; simpl; auto. Qed.

Lemma SFadd_nonpos (x y : spec_float) :
  sf_nonpos x -> sf_nonpos y -> sf_nonpos (SF64add x y).
Proof.
  destruct x as [sx|sx| |sx mx ex], y as [sy|sy| |sy my ey]; simpl;
    try tauto; intros Hx Hy; subst; try reflexivity.
  - destruct sx, sy; exact I.
  - apply signed_nonpos, binary_round_signed.
Qed.

Local Open Scope float_scope.

Lemma fold_add_nonpos (xs : list float) (acc : float) :
  Forall (fun x => sf_nonpos (Prim2SF x)) xs ->
  sf_nonpos (Prim2SF acc) ->
  sf_nonpos (Prim2SF (fold_left PrimFloat.add xs acc)).
Proof.
  intros Hxs. revert acc. induction Hxs as [|x xs Hx _ IH]; intros acc Hacc.
  - exact Hacc.
  - simpl. apply IH. rewrite FloatAxioms.add_spec. now apply SFadd_nonpos.
Qed.

Lemma not_positive_nonpos (v : float) :
  (0 <? v) = false -> is_nan v = false -> sf_nonpos (Prim2SF v).
Proof.
  rewrite FloatAxioms.ltb_spec, is_nan_Prim2SF.
  change (Prim2SF 0) with (S754_zero false).
  destruct (Prim2SF v) as [s|s| |s m e]; simpl; try discriminate;
    try (intros; exact I); destruct s; try discriminate; reflexivity.
Qed.

Lemma nonpos_not_positive (v : float) :
  sf_nonpos (Prim2SF v) -> (0 <? v) = false.
Proof.
  rewrite FloatAxioms.ltb_spec. change (Prim2SF 0) with (S754_zero false).
  destruct (Prim2SF v) as [s|s| |s m e]; simpl; try reflexivity;
    intros ->; reflexivity.
Qed.

Lemma filled_numbers_nonpos (ps : list (Position float)) :
  (forall p v, In p ps -> market_value p = Some v -> (0 <? v) = false) ->
  Forall (fun x => sf_nonpos (Prim2SF x))
    (numbers (fillna 0 (map (fun p => opt_num (market_value p)) ps))).
Proof.
  induction ps as [|p ps IH]; intros Hall; [constructor|].
  assert (Hrest : Forall (fun x => sf_nonpos (Prim2SF x))
                    (numbers (fillna 0 (map (fun p => opt_num (market_value p)) ps)))).
  { apply IH. intros q v Hq. apply Hall. now right. }
  cbn [map fillna]. fold (fillna 0 (map (fun p => opt_num (market_value p)) ps)).
  destruct (market_value p) as [v|] eqn:Hv; cbn [opt_num notna nisnan binary64].
  - destruct (is_nan v) eqn:Hnan; cbn [negb numbers nisnan binary64].
    + change (is_nan 0) with false. cbn iota. constructor; [exact I|exact Hrest].
    + rewrite Hnan. constructor; [|exact Hrest].
      apply not_positive_nonpos; [|exact Hnan].
      apply (Hall p v (or_introl eq_refl) Hv).
  - cbn [numbers nisnan binary64]. change (is_nan 0) with false. cbn iota.
    constructor; [exact I|exact Hrest].
Qed.

(** X19.  A book without a positive market value gets no weights: when the
    market value of no position is above zero, and there is a position, the
    report is returned without [weight_pct]. *)
Theorem no_positive_value_no_weights (pf : Portfolio float) :
  positions pf <> [] ->
  (forall p v, In p (positions pf) ->
     market_value p = Some v -> (0 <? v) = false) ->
  weights_computed pf = false
  /\ to_dataframe pf = Ok (frame_of (positions pf))
  /\ weight_pct (frame_of (positions pf)) = None.
Proof.
  intros Hne Hall.
  assert (Hw : weights_computed pf = false).
  { unfold weights_computed. apply andb_false_intro2.
    cbn [nltb n0 binary64]. apply nonpos_not_positive.
    unfold total_value_used, series_sum, market_values.
    apply (fold_add_nonpos _ 0); [|exact I].
    apply (filled_numbers_nonpos _ Hall). }
  split; [exact Hw|]. split; [|reflexivity].
  now rewrite (to_dataframe_value pf Hne), Hw.
Qed.

End ShortBooks.

Lemma no_positive_value_no_weights_witness :
  let pf := {| positions :=
                 [ {| ticker := "SHT"; quantity := (-500)%float;
                      avg_cost := 2%float; latest_price := Some 1.5%float;
                      sector := None |};
                   {| ticker := "NEW"; quantity := 3%float;
                      avg_cost := 20%float; latest_price := None;
                      sector := None |} ] |} in
  to_dataframe pf = Ok (frame_of (positions pf)).
Proof.
  intros pf. apply (no_positive_value_no_weights pf).
  - discriminate.
  - intros p v [<-|[<-|[]]] Hv; [injection Hv as <-; reflexivity|discriminate Hv].
Defined.

(** ** The two totals of market value, in exact arithmetic *)

(** X20.  In exact arithmetic the total that the report divides by agrees
    with [total_market_value]: it equals it when some position has a market
    value, and is 0 when none has. *)
Theorem exact_totals_agree (pf : Portfolio Q) :
  match total_market_value pf with
  | Some t => (t == total_value_used pf)%Q
  | None => (total_value_used pf == 0)%Q
  end.
Proof.
  rewrite exact_total. unfold total_market_value.
  destruct (defined_values (positions pf)) as [|v vs] eqn:Hd.
  - rewrite <- (Qsum_defined_values (positions pf) 0), Hd. reflexivity.
  - rewrite <- Hd. apply (Qsum_defined_values (positions pf) 0).
Qed.
